(** * biodumpy: the downloaders of [biodumpy/inputs] (COL, INaturalist, NCBI)

    A shallow embedding of the three downloader classes and the properties
    their documentation states about them.

    - [Py]: the Python values the downloaders handle (parsed JSON, Entrez
      records) and the builtins applied to them, with the exceptions they
      raise.
    - [IO]: a state-and-exception monad over a world; every module
      instantiates the world with the services it talks to.
    - [COL], [INaturalist], [NCBI]: one module per source file. *)

From Stdlib Require Import ZArith Ascii String List Bool Lia.
From stdpp Require Import base gmap strings list.

Local Open Scope Z_scope.
Set Warnings "-register-all".

(* ===================================================================== *)
(** ** Python values and builtins *)
(* ===================================================================== *)

Module Py.

(** The exceptions the modelled code can meet. All are subclasses of
    [Exception] but the last three: [KeyboardInterrupt], [SystemExit] and
    whatever else derives from [BaseException] only. *)
Inductive exn :=
| KeyError
| IndexError
| TypeError
| AttributeError
| ValueError
| JSONDecodeError
| EOFError
| ConnectionError
| IncompleteRead
| BiodumpyException (msg : string) (code : Z)
| OtherException (name : string)       (* another subclass of Exception *)
| KeyboardInterrupt
| SystemExit
| OtherBaseException (name : string).  (* GeneratorExit, ... *)

(** [isinstance(e, Exception)] *)
Definition is_Exception (e : exn) : bool :=
  match e with
  | KeyboardInterrupt | SystemExit | OtherBaseException _ => false
  | _ => true
  end.

Inductive res (A : Type) :=
| Ok (a : A)
| Raise (e : exn).
Arguments Ok {A} a.
Arguments Raise {A} e.

Definition rbind {A B} (r : res A) (k : A → res B) : res B :=
  match r with
  | Ok a => k a
  | Raise e => Raise e
  end.

(** What [json.loads] (and [response.json()]) produces: [None], [bool],
    [int], [str], [list] and [dict] with string keys in insertion order.
    Numbers are the integers of the providers' schemas. A [str] is held as
    its UTF-8 bytes: a character is a byte outside 0x80-0xBF together with
    the bytes of that range that follow it, and a search for ASCII text
    ("/", "square", "Skip", the license codes) finds in the bytes what
    Python finds in the characters. *)
Inductive value :=
| VNone
| VBool (b : bool)
| VInt (n : Z)
| VStr (s : string)
| VList (l : list value)
| VDict (kv : list (string * value)).

(** [d[k]] on the entries of a dict: the first entry under key [k]. *)
Fixpoint dict_lookup (k : string) (kv : list (string * value)) : option value :=
  match kv with
  | [] => None
  | (k', v) :: kv' => if String.eqb k k' then Some v else dict_lookup k kv'
  end.

(** [bool(v)]: the truth value used by [if v] and [v if c else w]. *)
Definition truthy (v : value) : bool :=
  match v with
  | VNone => false
  | VBool b => b
  | VInt n => negb (n =? 0)
  | VStr s => negb (String.eqb s "")
  | VList l => match l with [] => false | _ => true end
  | VDict kv => match kv with [] => false | _ => true end
  end.

(** [a == b]. [True == 1] and [False == 0] hold in Python; dicts compare
    regardless of the order of their keys. *)
Fixpoint py_eq (a b : value) {struct a} : bool :=
  match a, b with
  | VNone, VNone => true
  | VBool x, VBool y => Bool.eqb x y
  | VBool x, VInt n => n =? (if x then 1 else 0)
  | VInt n, VBool x => n =? (if x then 1 else 0)
  | VInt n, VInt m => n =? m
  | VStr s, VStr t => String.eqb s t
  | VList l, VList l' =>
      (fix go (l l' : list value) : bool :=
         match l, l' with
         | [], [] => true
         | x :: l, y :: l' => py_eq x y && go l l'
         | _, _ => false
         end) l l'
  | VDict kv, VDict kv' =>
      Nat.eqb (length kv) (length kv') &&
      (fix go (kv : list (string * value)) : bool :=
         match kv with
         | [] => true
         | (k, v) :: kv =>
             match dict_lookup k kv' with
             | Some v' => py_eq v v'
             | None => false
             end && go kv
         end) kv
  | _, _ => false
  end.

(** [v is None] *)
Definition is_none (v : value) : bool :=
  match v with VNone => true | _ => false end.

(** [v[k]] for a string key [k]. *)
Definition getitem (v : value) (k : string) : res value :=
  match v with
  | VDict kv => match dict_lookup k kv with Some x => Ok x | None => Raise KeyError end
  | _ => Raise TypeError
  end.

(** [v.get(k)] *)
Definition dict_get (v : value) (k : string) : res value :=
  match v with
  | VDict kv => Ok (default VNone (dict_lookup k kv))
  | _ => Raise AttributeError
  end.

(** The bytes 0x80 to 0xBF, which continue a character. *)
Definition is_continuation (c : ascii) : bool :=
  let n := nat_of_ascii c in
  ((128 <=? n) && (n <? 192))%nat.

(** The characters of a string, each as a one-character string; [cur]
    holds the bytes of the character being read. *)
Fixpoint chars_from (cur s : string) : list string :=
  match s with
  | EmptyString => [cur]
  | String c s' =>
      if is_continuation c then chars_from (cur +:+ String c EmptyString) s'
      else cur :: chars_from (String c EmptyString) s'
  end.

Definition chars (s : string) : list string :=
  match s with
  | EmptyString => []
  | String c s' => chars_from (String c EmptyString) s'
  end.

(** [l[i]] on a Python list, negative indices counting from the end. *)
Definition list_index {A} (l : list A) (i : Z) : res A :=
  let n := Z.of_nat (length l) in
  let j := if i <? 0 then i + n else i in
  if (j <? 0) || (n <=? j) then Raise IndexError
  else match l !! Z.to_nat j with Some x => Ok x | None => Raise IndexError end.

(** [v[i]] for an integer [i]. A dict from JSON has no integer key. *)
Definition getitem_int (v : value) (i : Z) : res value :=
  match v with
  | VList l => list_index l i
  | VStr s => rbind (list_index (chars s) i) (λ c, Ok (VStr c))
  | VDict _ => Raise KeyError
  | _ => Raise TypeError
  end.

(** [len(v)] *)
Definition py_len (v : value) : res nat :=
  match v with
  | VList l => Ok (length l)
  | VDict kv => Ok (length kv)
  | VStr s => Ok (length (chars s))
  | _ => Raise TypeError
  end.

(** The elements a [for] loop or a comprehension runs through. *)
Definition py_iter (v : value) : res (list value) :=
  match v with
  | VList l => Ok l
  | VDict kv => Ok (map (λ p, VStr (fst p)) kv)
  | VStr s => Ok (map VStr (chars s))
  | _ => Raise TypeError
  end.

(** [sub in s] on strings. *)
Fixpoint is_infix (sub s : string) : bool :=
  String.prefix sub s ||
  match s with
  | EmptyString => false
  | String _ s' => is_infix sub s'
  end.

(** [k in v] for a string [k]. *)
Definition contains (k : string) (v : value) : res bool :=
  match v with
  | VDict kv => Ok (match dict_lookup k kv with Some _ => true | None => false end)
  | VList l => Ok (existsb (py_eq (VStr k)) l)
  | VStr s => Ok (is_infix k s)
  | _ => Raise TypeError
  end.

(** [v in terms] for a list of string constants. *)
Definition in_strings (v : value) (terms : list string) : bool :=
  existsb (λ t, py_eq v (VStr t)) terms.

(** [sep.join(l)]: every element must be a [str]. *)
Fixpoint strings_of (l : list value) : res (list string) :=
  match l with
  | [] => Ok []
  | VStr s :: l' => rbind (strings_of l') (λ r, Ok (s :: r))
  | _ :: _ => Raise TypeError
  end.

Definition str_join (sep : string) (l : list value) : res string :=
  rbind (strings_of l) (λ ss, Ok (String.concat sep ss)).

(** [[x for x in l if c(x)]] where the condition can raise. *)
Fixpoint filter_r {A} (c : A → res bool) (l : list A) : res (list A) :=
  match l with
  | [] => Ok []
  | x :: l' =>
      rbind (c x) (λ b,
      rbind (filter_r c l') (λ r, Ok (if b then x :: r else r)))
  end.

(** [[f(x) for x in l if c(x)]]: element by element, the condition and
    then the expression. *)
Fixpoint comprehension {A B} (c : A → res bool) (f : A → res B)
    (l : list A) : res (list B) :=
  match l with
  | [] => Ok []
  | x :: l' =>
      rbind (c x) (λ b,
      if b then
        rbind (f x) (λ y, rbind (comprehension c f l') (λ r, Ok (y :: r)))
      else comprehension c f l')
  end.

(** [next(filter(c, l), None)]: the filter is lazy, so only the elements
    up to the first hit are examined. *)
Fixpoint first_r {A} (c : A → res bool) (l : list A) : res (option A) :=
  match l with
  | [] => Ok None
  | x :: l' => rbind (c x) (λ b, if b then Ok (Some x) else first_r c l')
  end.

(** The newline character. *)
Definition nl : string := String (ascii_of_nat 10) EmptyString.

(** [s.split(sep)] for a non-empty [sep]: left to right, occurrences do not
    overlap. [skip] counts the characters of a separator still to pass. *)
Fixpoint split_go (sep : string) (skip : nat) (cur s : string) : list string :=
  match s with
  | EmptyString => [cur]
  | String c s' =>
      match skip with
      | S k => split_go sep k cur s'
      | O =>
          if String.prefix sep s
          then cur :: split_go sep (String.length sep - 1) "" s'
          else split_go sep 0 (cur +:+ String c "") s'
      end
  end.

Definition split (sep s : string) : list string := split_go sep 0 "" s.

(** [s.replace(old, new)] for a non-empty [old]. *)
Fixpoint replace_go (old new : string) (skip : nat) (s : string) : string :=
  match s with
  | EmptyString => EmptyString
  | String c s' =>
      match skip with
      | S k => replace_go old new k s'
      | O =>
          if String.prefix old s
          then new +:+ replace_go old new (String.length old - 1) s'
          else String c (replace_go old new 0 s')
      end
  end.

Definition replace (old new s : string) : string := replace_go old new 0 s.

End Py.

(* ===================================================================== *)
(** ** Effects: a state-and-exception monad over a world *)
(* ===================================================================== *)

Module IO.
Import Py.

Definition M (W A : Type) : Type := W → W * res A.

Definition ret {W A} (a : A) : M W A := λ w, (w, Ok a).

Definition raise {W A} (e : exn) : M W A := λ w, (w, Raise e).

Definition bind {W A B} (m : M W A) (k : A → M W B) : M W B :=
  λ w, match m w with
       | (w', Ok a) => k a w'
       | (w', Raise e) => (w', Raise e)
       end.

(** A pure computation that can raise. *)
Definition lift {W A} (r : res A) : M W A := λ w, (w, r).

(** What an [except Exception as e: h] clause does with [e]: the handler
    for an instance of [Exception]; anything else ([KeyboardInterrupt],
    [SystemExit]) goes on to the caller. *)
Definition except_Exception {W A} (e : exn) (h : M W A) : M W A :=
  if is_Exception e then h else raise e.

(** [try: m  except Exception as e: h e]. Where the source has an
    [except IncompleteRead] clause before it, [h] tells the two apart. *)
Definition try_except {W A} (m : M W A) (h : exn → M W A) : M W A :=
  λ w, match m w with
       | (w', Ok a) => (w', Ok a)
       | (w', Raise e) => except_Exception e (h e) w'
       end.

Definition modify {W} (f : W → W) : M W unit := λ w, (f w, Ok tt).

Definition get {W} : M W W := λ w, (w, Ok w).

End IO.

Notation "x <~ c ;; k" := (IO.bind c (λ x, k))
  (at level 100, c at next level, right associativity).
Notation "c ;;; k" := (IO.bind c (λ _, k))
  (at level 100, right associativity).

(** An HTTP response as [requests] hands it over: the status code and what
    [response.json()] gives (or raises). *)
Record response := {
  status_code : Z;
  json : Py.res Py.value;
}.

(* ===================================================================== *)
(** ** biodumpy/inputs/COL.py *)
(* ===================================================================== *)

Module COL.
Import Py IO.

Inductive event :=
| EvGet (url : string)                       (* requests.get(url) *)
| EvLogError (fmt : string) (arg : Z)        (* logging.error(fmt, arg) *)
| EvInput (prompt : string).                 (* input(prompt) *)

(** The world of a call: what the provider answers to a GET, the lines the
    operator will type, and the events so far. *)
Record world := {
  http : string → res response;
  stdin : list string;
  trace : list event;
}.

Definition world_with (w : world) (events : list event) : world :=
  {| http := http w; stdin := stdin w; trace := trace w ++ events |}.

Definition emit (e : event) : M world unit :=
  modify (λ w, world_with w [e]).

Definition requests_get (url : string) : M world response :=
  emit (EvGet url) ;;;
  w <~ get ;;
  lift (http w url).

Definition logging_error (fmt : string) (arg : Z) : M world unit :=
  emit (EvLogError fmt arg).

(** [input(prompt)]: the next line of standard input, [EOFError] at its end. *)
Definition input (prompt : string) : M world string :=
  emit (EvInput prompt) ;;;
  w <~ get ;;
  match stdin w with
  | [] => raise EOFError
  | line :: rest =>
      modify (λ w, {| http := http w; stdin := rest; trace := trace w |}) ;;;
      ret line
  end.

Definition ACCEPTED_TERMS : list string := ["accepted"; "provisionally accepted"].

Record COL := { check_syn : bool }.

Definition url (query : string) : string :=
  "https://api.checklistbank.org/dataset/9923/nameusage/search?q=" +:+ query
  +:+ "&content=SCIENTIFIC_NAME&type=EXACT&offset=0&limit=10".

Definition record (query : string) (id status usage classification : value) : value :=
  VDict [("origin_taxon", VStr query); ("taxon_id", id); ("status", status);
         ("usage", usage); ("classification", classification)].

(** [[item.get("id") for item in result if "id" in item]] *)
Definition ids_of (items : list value) : res (list value) :=
  comprehension (contains "id") (λ item, dict_get item "id") items.

(** The f-string of line 77. *)
Definition prompt (query ids : string) : string :=
  "Please enter the correct taxon ID of " +:+ query +:+ " " +:+ nl +:+ " ID: "
  +:+ ids +:+ "; Skip " +:+ nl +:+ "Insert the ID:".

(** [[item for item in result if item["id"] == id_input]] *)
Definition with_id (id_input : string) (items : list value) : res (list value) :=
  filter_r (λ item, rbind (getitem item "id") (λ i, Ok (py_eq i (VStr id_input)))) items.

(** Lines 74-82: more than one candidate asks the operator. *)
Definition disambiguate (query : string) (result : value) : M world value :=
  n <~ lift (py_len result) ;;
  if (1 <? n)%nat then
    items <~ lift (py_iter result) ;;
    ids <~ lift (ids_of items) ;;
    ids <~ lift (str_join ", " ids) ;;
    id_input <~ input (prompt query ids) ;;
    if String.eqb id_input "Skip" then
      ret (VList [VDict [("id", VNone); ("usage", VNone); ("status", VNone);
                         ("classification", VNone)]])
    else
      items <~ lift (py_iter result) ;;
      kept <~ lift (with_id id_input items) ;;
      ret (VList kept)
  else ret result.

(** Lines 89-91: with [check_syn], a name that is not accepted loses its own
    entry in the classification. *)
Definition strip_synonym (self : COL) (status usage classification : value)
  : res value :=
  if check_syn self && negb (in_strings status ACCEPTED_TERMS) then
    rbind (if truthy usage then dict_get usage "id" else Ok VNone) (λ synonym_id,
    if truthy classification then
      rbind (py_iter classification) (λ items,
      rbind (filter_r (λ item, rbind (getitem item "id")
                                 (λ i, Ok (negb (py_eq i synonym_id)))) items)
            (λ kept, Ok (VList kept)))
    else Ok VNone)
  else Ok classification.

(** Lines 84-93: the record of the first element of [result]. *)
Definition shape (self : COL) (query : string) (result : value) : res value :=
  rbind (getitem_int result 0) (λ r0,
  rbind (dict_get r0 "id") (λ id,
  rbind (dict_get r0 "usage") (λ usage,
  rbind (if truthy usage then dict_get usage "status" else Ok VNone) (λ status,
  rbind (dict_get r0 "classification") (λ classification,
  rbind (strip_synonym self status usage classification) (λ classification,
  Ok (VList [record query id status usage classification]))))))).

(** Lines 66-95: from the parsed body to the payload. *)
Definition parse (self : COL) (query : string) (resp : response) : M world value :=
  payload <~ lift (json resp) ;;
  empty <~ lift (getitem payload "empty") ;;
  if truthy empty then
    ret (VList [record query VNone VNone VNone VNone])
  else
    body <~ lift (json resp) ;;
    result <~ lift (getitem body "result") ;;
    result <~ disambiguate query result ;;
    lift (shape self query result).

Definition _download (self : COL) (query : string) : M world value :=
  resp <~ requests_get (url query) ;;
  (if negb (status_code resp =? 200)
   then logging_error "COL response code: %s" (status_code resp)
   else ret tt) ;;;
  parse self query resp.

(** *** The provider's data and the words of the documentation *)

(** [item["id"]] when it is a string. *)
Definition item_id (item : value) : option string :=
  match item with
  | VDict kv => match dict_lookup "id" kv with Some (VStr s) => Some s | _ => None end
  | _ => None
  end.

Definition has_str_id (item : value) : bool :=
  match item_id item with Some _ => true | None => false end.

Definition id_is (a : string) (item : value) : bool :=
  match item_id item with Some s => String.eqb s a | None => false end.

Definition field (k : string) (item : value) : value :=
  match item with
  | VDict kv => default VNone (dict_lookup k kv)
  | _ => VNone
  end.

Definition has_field (k : string) (item : value) : bool :=
  match item with
  | VDict kv => match dict_lookup k kv with Some _ => true | None => false end
  | _ => false
  end.

Definition is_object (v : value) : bool :=
  match v with VDict _ => true | _ => false end.

(** A candidate of the provider: an object whose [usage] is an object or
    null and whose [classification] is null or a list of objects that each
    have an [id]. *)
Definition wf_candidate (c : value) : bool :=
  is_object c &&
  match field "usage" c with VNone | VDict _ => true | _ => false end &&
  match field "classification" c with
  | VNone => true
  | VList entries => forallb (has_field "id") entries
  | _ => false
  end.

(** The IDs the prompt lists. *)
Fixpoint ids (items : list value) : list string :=
  match items with
  | [] => []
  | item :: rest =>
      match item_id item with
      | Some s => s :: ids rest
      | None => ids rest
      end
  end.

(** The candidate the disambiguation puts in place of the candidates when
    the answer is "Skip" (line 80). *)
Definition skipped : value :=
  VDict [("id", VNone); ("usage", VNone); ("status", VNone); ("classification", VNone)].

(** The classification of the record of candidate [c], in the words of
    the class documentation: untouched, unless [check_syn] is set and the
    status is not an accepted one; then without the entries that carry the
    ID of the usage. *)
Definition classification_for (self : COL) (c : value) : value :=
  let usage := field "usage" c in
  if check_syn self && negb (in_strings (field "status" usage) ACCEPTED_TERMS) then
    match field "classification" c with
    | VList (e :: es) =>
        VList (List.filter (λ x, negb (py_eq (field "id" x) (field "id" usage))) (e :: es))
    | _ => VNone
    end
  else field "classification" c.

Definition record_of (self : COL) (query : string) (c : value) : value :=
  record query (field "id" c) (field "status" (field "usage" c)) (field "usage" c)
    (classification_for self c).

(** [out[0][k]] of a returned payload [out]. *)
Definition returned (k : string) (out : res value) : option value :=
  match out with
  | Ok (VList [VDict kv]) => dict_lookup k kv
  | _ => None
  end.

(** Sample provider data. *)
Definition candidate (id status usage_id : string) (lineage : list string) : value :=
  VDict [("id", VStr id);
         ("usage", VDict [("id", VStr usage_id); ("status", VStr status)]);
         ("classification", VList (map (λ i, VDict [("id", VStr i)]) lineage))].

Definition found (candidates : list value) : value :=
  VDict [("empty", VBool false); ("result", VList candidates)].

Definition provider (code : Z) (body : value) (typed : list string) : world :=
  {| http := λ _, Ok {| status_code := code; json := Ok body |};
     stdin := typed; trace := [] |}.

End COL.

(* ===================================================================== *)
(** ** biodumpy/inputs/INaturalist.py *)
(* ===================================================================== *)

Module INaturalist.
Import Py IO.

Inductive event :=
| EvSearch (url : string)         (* requests.get of the taxa search *)
| EvTaxon (taxon_id : value).     (* requests.get of /v1/taxa/{taxon_id} *)

(** The provider: the answer to the search URL, and the answer to the
    detail URL, which the f-string of line 85 builds from [taxon_id]. *)
Record world := {
  search : string → res response;
  taxon : value → res response;
  trace : list event;
}.

Definition world_with (w : world) (events : list event) : world :=
  {| search := search w; taxon := taxon w; trace := trace w ++ events |}.

Definition emit (e : event) : M world unit :=
  modify (λ w, world_with w [e]).

Definition get_search (url : string) : M world response :=
  emit (EvSearch url) ;;;
  w <~ get ;;
  lift (search w url).

Definition get_taxon (taxon_id : value) : M world response :=
  emit (EvTaxon taxon_id) ;;;
  w <~ get ;;
  lift (taxon w taxon_id).

Definition url (query : string) : string :=
  "https://api.inaturalist.org/v1/taxa?q=" +:+ query
  +:+ "&order=desc&order_by=observations_count".

(** Photo license values valid for the download (line 69). *)
Definition photo_license : list string :=
  ["cc0"; "cc-by"; "cc-by-nc"; "cc-by-nc-nd"; "cc-by-sa"; "cc-by-nd"; "cc-by-nc-sa"].

Definition photo_details (query : string) (image_id license_code attribution : value)
  : value :=
  VDict [("taxon", VStr query); ("image_id", image_id);
         ("license_code", license_code); ("attribution", attribution)].

Definition photo_details_empty (query : string) : value :=
  photo_details query VNone VNone VNone.

(** Lines 95 and 98 (and 109, 112):
    [url_photo.split("/")[-2] + "/" + url_photo.split("/")[-1]], then
    [.replace("square", "medium")]. *)
Definition image_id_of (url_photo : string) : res string :=
  rbind (list_index (split "/" url_photo) (-2)) (λ a,
  rbind (list_index (split "/" url_photo) (-1)) (λ b,
  Ok (replace "square" "medium" (a +:+ "/" +:+ b)))).

Definition image_id (url_photo : value) : res value :=
  match url_photo with
  | VStr u => rbind (image_id_of u) (λ i, Ok (VStr i))
  | _ => Raise AttributeError
  end.

(** Lines 108-115 (and 94-101 with [photo = photo_details["photo"]]): the
    record of a chosen photo. *)
Definition chosen (query : string) (photo : res value) : res value :=
  rbind (rbind photo (λ p, getitem p "url")) (λ url_photo,
  rbind (image_id url_photo) (λ image,
  rbind (rbind photo (λ p, getitem p "license_code")) (λ license_code,
  rbind (rbind photo (λ p, getitem p "attribution")) (λ attribution,
  Ok (photo_details query image license_code attribution))))).

(** Lines 78-81 *)
Definition default_photo_info (results_filtered : value) : res value :=
  rbind (getitem results_filtered "default_photo") (λ dp,
  if negb (is_none dp) then
    rbind (getitem dp "license_code") (λ lc, Ok (if truthy lc then dp else VNone))
  else Ok VNone).

(** [lambda x: x["name"] == query] (line 73) *)
Definition named (query : string) (x : value) : res bool :=
  rbind (getitem x "name") (λ n, Ok (py_eq n (VStr query))).

(** [lambda x: x["photo"]["license_code"] in photo_license] (line 91) *)
Definition licensed (x : value) : res bool :=
  rbind (rbind (getitem x "photo") (λ p, getitem p "license_code"))
        (λ lc, Ok (in_strings lc photo_license)).

(** Lines 85-106: search the photo in the occurrences. *)
Definition occurrence_photo (query : string) (taxon_id : value) : M world value :=
  response_id <~ get_taxon taxon_id ;;
  if status_code response_id =? 200 then
    results_id <~ lift (rbind (json response_id) (λ b, getitem b "results")) ;;
    photo_id <~ lift (rbind (getitem_int results_id 0) (λ r, getitem r "taxon_photos")) ;;
    photos <~ lift (py_iter photo_id) ;;
    found <~ lift (first_r licensed photos) ;;
    match found with
    | Some x =>
        if truthy x then lift (chosen query (getitem x "photo"))
        else ret (photo_details_empty query)
    | None => ret (photo_details_empty query)
    end
  else ret (photo_details_empty query).

Definition _download (query : string) : M world value :=
  resp <~ get_search (url query) ;;
  if negb (status_code resp =? 200) then
    raise (BiodumpyException "[iNaturalist] - Response code: " (status_code resp))
  else
    if status_code resp =? 200 then
      results <~ lift (rbind (json resp) (λ b, getitem b "results")) ;;
      items <~ lift (py_iter results) ;;
      results_filtered <~ lift (first_r (named query) items) ;;
      match results_filtered with
      | Some rf =>
          if truthy rf then
            taxon_id <~ lift (getitem rf "id") ;;
            photo_info <~ lift (default_photo_info rf) ;;
            details <~ (if is_none photo_info then occurrence_photo query taxon_id
                        else lift (chosen query (Ok photo_info))) ;;
            ret (VList [details])
          else ret (VList [photo_details_empty query])
      | None => ret (VList [photo_details_empty query])
      end
    else ret (VList [photo_details_empty query]).

(** [out[0][k]] of a returned payload [out]. *)
Definition returned (k : string) (out : res value) : option value :=
  match out with
  | Ok (VList [VDict kv]) => dict_lookup k kv
  | _ => None
  end.

(** A string without "/": one segment of a path. *)
Fixpoint no_slash (s : string) : bool :=
  match s with
  | EmptyString => true
  | String c s' => negb (Ascii.eqb c "/"%char) && no_slash s'
  end.

(** Sample provider data. *)
Definition photo (url license_code : value) : value :=
  VDict [("url", url); ("license_code", license_code);
         ("attribution", VStr "(c) observer")].

Definition taxa (results : list value) : res response :=
  Ok {| status_code := 200; json := Ok (VDict [("results", VList results)]) |}.

Definition provider (results : list value) (taxon_photos : list value) : world :=
  {| search := λ _, taxa results;
     taxon := λ _, taxa [VDict [("taxon_photos",
                                 VList (map (λ p, VDict [("photo", p)]) taxon_photos))]];
     trace := [] |}.

End INaturalist.

(* ===================================================================== *)
(** ** biodumpy/inputs/NCBI.py *)
(* ===================================================================== *)

Module NCBI.
Import Py IO.

(** What [Entrez.read] gives for a search, seen through the two accesses the
    code makes: [int(record['Count'])] and [record['IdList']]. *)
Record esearch_record := {
  Count : res Z;
  IdList : list string;
}.

(** One summary of [Entrez.esummary], seen through [int(summary['Length'])]
    and [summary['Id']]. *)
Record summary := {
  Length : res Z;
  Id : res string;
}.

(** The f-strings that are logged and printed. *)
Inductive message :=
| MsgIds (e : exn)                                  (* line 88 *)
| MsgRetrying (e : exn) (n retries : Z)             (* lines 121-122 *)
| MsgError (e : exn)                                (* lines 127-128 *)
| MsgFailed (seq_id : list string) (retries : Z).   (* lines 132-133 *)

Inductive event :=
| EvEsearch (db term : string) (retstart retmax : Z)
| EvEsummary (db ids : string)
| EvEfetch (seq_id : list string) (rettype : string)
| EvWarning (m : message)
| EvError (m : message)
| EvPrint (m : message)
| EvSleep (seconds : Z).

(** The sequence database. A fetch can fail one time and succeed the next,
    so [efetch] also takes the number of fetches made before it. *)
Record world := {
  esearch : string → string → Z → Z → res esearch_record;
  esummary : string → string → res (list summary);
  efetch : nat → list string → string → res string;
  fetches : nat;
  trace : list event;
}.

Definition world_with (w : world) (events : list event) : world :=
  {| esearch := esearch w; esummary := esummary w; efetch := efetch w;
     fetches := fetches w; trace := trace w ++ events |}.

Definition emit (e : event) : M world unit :=
  modify (λ w, world_with w [e]).

Definition Entrez_esearch (db term : string) (retstart retmax : Z)
  : M world esearch_record :=
  emit (EvEsearch db term retstart retmax) ;;;
  w <~ get ;;
  lift (esearch w db term retstart retmax).

Definition Entrez_esummary (db ids : string) : M world (list summary) :=
  emit (EvEsummary db ids) ;;;
  w <~ get ;;
  lift (esummary w db ids).

(** [Entrez.efetch] and the reading of its handle. *)
Definition Entrez_efetch (seq_id : list string) (rettype : string) : M world string :=
  emit (EvEfetch seq_id rettype) ;;;
  w <~ get ;;
  modify (λ w, {| esearch := esearch w; esummary := esummary w; efetch := efetch w;
                  fetches := S (fetches w); trace := trace w |}) ;;;
  lift (efetch w (fetches w) seq_id rettype).

Definition logging_warning (m : message) : M world unit := emit (EvWarning m).
Definition logging_error (m : message) : M world unit := emit (EvError m).
Definition print (m : message) : M world unit := emit (EvPrint m).
Definition time_sleep (seconds : Z) : M world unit := emit (EvSleep seconds).

(** [range(start, stop, step)] *)
Definition py_range (start stop step : Z) : res (list Z) :=
  if step =? 0 then Raise ValueError
  else
    let n := if 0 <? step then (stop - start + step - 1) / step
             else (start - stop - step - 1) / (- step) in
    Ok (map (λ i, start + Z.of_nat i * step) (seq 0 (Z.to_nat n))).

(** Modelled from the spec: [biodumpy.utils.split_to_batches], which is not
    among the sources. The IDs "are grouped into the same batch size":
    consecutive slices of [batch_size] elements, the last one shorter. *)
Fixpoint split_to_batches_go {A} (fuel : nat) (batch_size : nat) (l : list A)
  : list (list A) :=
  match fuel, l with
  | _, [] => []
  | O, _ => []
  | S fuel', _ => take batch_size l :: split_to_batches_go fuel' batch_size (drop batch_size l)
  end.

Definition split_to_batches {A} (input_list : list A) (batch_size : Z) : list (list A) :=
  if batch_size <=? 0 then []
  else split_to_batches_go (length input_list) (Z.to_nat batch_size) input_list.

Section Records.
(** Biopython's [SeqRecord], what [SeqIO.to_dict(SeqIO.parse(handle,
    rettype)).values()] makes of a fetched text, and what
    [json.loads(json.dumps(seq, cls=CustomEncoder))] makes of a record. *)
Variable SeqRecord : Type.
Variable SeqIO_records : string → string → res (list SeqRecord).
Variable encode : SeqRecord → res value.

(** [list(ids_list)]: the elements of the set in the order of its hash
    table, which changes with the hash seed of the process. Any order of
    the elements can be the one (see [lists_the_set]). *)
Variable set_listing : gset string → list string.

Record NCBI := {
  max_bp : Z;
  db : string;
  step : Z;
  rettype : string;
}.

(** [self.rettype], where an argument is called [rettype] too. *)
Definition self_rettype (self : NCBI) : string := rettype self.

(** What [download_seq] yields: the blocks of a FASTA text or records. *)
Inductive sequence :=
| Fasta (block : string)
| Parsed (r : SeqRecord).

(** Lines 81-84, with the set threaded through: the IDs added so far stay
    when a later summary raises. *)
Fixpoint add_summaries (self : NCBI) (summaries : list summary)
    (id_bp_list : gset string) : gset string * res unit :=
  match summaries with
  | [] => (id_bp_list, Ok tt)
  | summary :: rest =>
      match Length summary with
      | Raise e => (id_bp_list, Raise e)
      | Ok bp =>
          if bp <=? max_bp self then
            match Id summary with
            | Raise e => (id_bp_list, Raise e)
            | Ok i =>
                if bool_decide (i ∉ id_bp_list)
                then add_summaries self rest (id_bp_list ∪ {[i]})
                else add_summaries self rest id_bp_list
            end
          else add_summaries self rest id_bp_list
      end
  end.

(** Lines 71-89: one turn of the loop. [false] stands for [break]. *)
Definition ids_page (self : NCBI) (term : string) (step : Z) (start : Z)
    (id_bp_list : gset string) : M world (gset string * bool) :=
  try_except
    (record <~ Entrez_esearch (db self) term start step ;;
     summaries <~ Entrez_esummary (db self) (String.concat "," (IdList record)) ;;
     match add_summaries self summaries id_bp_list with
     | (ids, Ok _) => ret (ids, true)
     | (ids, Raise e) => except_Exception e (print (MsgIds e) ;;; ret (ids, false))
     end)
    (λ e, print (MsgIds e) ;;; ret (id_bp_list, false)).

Fixpoint ids_loop (self : NCBI) (term : string) (step : Z) (starts : list Z)
    (id_bp_list : gset string) : M world (gset string) :=
  match starts with
  | [] => ret id_bp_list
  | start :: rest =>
      r <~ ids_page self term step start id_bp_list ;;
      if snd r then ids_loop self term step rest (fst r) else ret (fst r)
  end.

(** Lines 62-91. The first search has [retmax=0] and the default
    [retstart]. *)
Definition download_ids (self : NCBI) (term : string) (step : Z)
  : M world (gset string) :=
  record <~ Entrez_esearch (db self) term 0 0 ;;
  total_ids <~ lift (Count record) ;;
  starts <~ lift (py_range 0 total_ids step) ;;
  ids_loop self term step starts ∅.

(** Lines 115-119. The branch is taken on [self.rettype], the parser is
    given the argument [rettype]. *)
Definition parse_fetched (self : NCBI) (rettype text : string) : res (list sequence) :=
  if String.eqb (self_rettype self) "fasta"
  then Ok (map Fasta (removelast (split (nl +:+ nl) text)))
  else rbind (SeqIO_records rettype text) (λ rs, Ok (map Parsed rs)).

(** How the [while] loop of [download_seq] is left: by [return], or by
    [break] or a false condition with the value of [attempt]. *)
Inductive loop_exit :=
| Returned (seqs : list sequence)
| Fell (attempt : Z).

(** Lines 109-129. Every turn that does not leave the loop adds one to
    [attempt], so [Z.to_nat (retries - attempt)] turns are enough. *)
Fixpoint attempts (self : NCBI) (seq_id : list string) (rettype : string)
    (retries : Z) (fuel : nat) (attempt : Z) : M world loop_exit :=
  match fuel with
  | O => ret (Fell attempt)
  | S fuel' =>
      if attempt <? retries then
        try_except
          (text <~ Entrez_efetch seq_id rettype ;;
           seqs <~ lift (parse_fetched self rettype text) ;;
           ret (Returned seqs))
          (λ e,
             match e with
             | IncompleteRead =>
                 logging_warning (MsgRetrying e (attempt + 1) retries) ;;;
                 print (MsgRetrying e (attempt + 1) retries) ;;;
                 time_sleep 2 ;;;
                 attempts self seq_id rettype retries fuel' (attempt + 1)
             | _ =>
                 logging_error (MsgError e) ;;;
                 print (MsgError e) ;;;
                 ret (Fell attempt)
             end)
      else ret (Fell attempt)
  end.

(** [None] is the value of a call that ends without [return]. *)
Definition download_seq (self : NCBI) (seq_id : list string) (rettype : string)
    (retries : Z) : M world (option (list sequence)) :=
  r <~ attempts self seq_id rettype retries (Z.to_nat retries) 0 ;;
  match r with
  | Returned seqs => ret (Some seqs)
  | Fell attempt =>
      (if attempt =? retries then
         logging_error (MsgFailed seq_id retries) ;;;
         print (MsgFailed seq_id retries)
       else ret tt) ;;;
      ret None
  end.

(** [json.loads(json.dumps(seq, cls=CustomEncoder))] *)
Definition roundtrip (seq : sequence) : res value :=
  match seq with
  | Fasta block => Ok (VStr block)
  | Parsed r => encode r
  end.

(** Lines 41-42 *)
Fixpoint append_all (seqs : list sequence) (payload : list value) : res (list value) :=
  match seqs with
  | [] => Ok payload
  | seq :: rest => rbind (roundtrip seq) (λ v, append_all rest (payload ++ [v]))
  end.

(** Lines 40-43. Iterating over [None] is a [TypeError]. *)
Fixpoint batches_loop (self : NCBI) (batches : list (list string))
    (payload : list value) : M world (list value) :=
  match batches with
  | [] => ret payload
  | seq_id :: rest =>
      r <~ download_seq self seq_id (rettype self) 3 ;;
      match r with
      | None => raise TypeError
      | Some seqs =>
          payload' <~ lift (append_all seqs payload) ;;
          batches_loop self rest payload'
      end
  end.

(** Lines 35-44 *)
Definition download (self : NCBI) (query : string) : M world (list value) :=
  ids_list <~ download_ids self query (step self) ;;
  batches_loop self (split_to_batches (set_listing ids_list) (step self)) [].

(** *** The properties, in words of their own *)

(** What the body of the [try] of [download_seq] comes to at the fetch
    number [n]. *)
Definition fetched (self : NCBI) (w : world) (n : nat) (seq_id : list string)
    (rettype : string) : res (list sequence) :=
  rbind (efetch w n seq_id rettype) (parse_fetched self rettype).

(** The events of [k] failed attempts in a row, the first one with
    [attempt] failures before it. *)
Fixpoint retry_events (seq_id : list string) (rettype : string) (retries : Z)
    (attempt : Z) (k : nat) : list event :=
  match k with
  | O => []
  | S k' =>
      [EvEfetch seq_id rettype;
       EvWarning (MsgRetrying IncompleteRead (attempt + 1) retries);
       EvPrint (MsgRetrying IncompleteRead (attempt + 1) retries);
       EvSleep 2]
      ++ retry_events seq_id rettype retries (attempt + 1) k'
  end.

(** [s] is one of the summaries of a page of the search for [term]. *)
Definition summarised (self : NCBI) (w : world) (term : string) (step : Z)
    (s : summary) : Prop :=
  ∃ start record summaries,
    esearch w (db self) term start step = Ok record ∧
    esummary w (db self) (String.concat "," (IdList record)) = Ok summaries ∧
    In s summaries.

(** The ID [i] comes from a summary whose length is at most [max_bp]. *)
Definition retained (self : NCBI) (w : world) (term : string) (step : Z)
    (i : string) : Prop :=
  ∃ s bp,
    summarised self w term step s ∧
    Id s = Ok i ∧ Length s = Ok bp ∧ bp <= max_bp self.

(** The provider gives one length per ID. *)
Definition one_length_per_id (self : NCBI) (w : world) (term : string) (step : Z)
    : Prop :=
  ∀ s1 s2,
    summarised self w term step s1 → summarised self w term step s2 →
    Id s1 = Id s2 → Length s1 = Length s2.

End Records.

Arguments Fasta {SeqRecord} block.
Arguments Parsed {SeqRecord} r.
Arguments Returned {SeqRecord} seqs.
Arguments Fell {SeqRecord} attempt.
Arguments parse_fetched {SeqRecord} SeqIO_records self rettype text.
Arguments attempts {SeqRecord} SeqIO_records self seq_id rettype retries fuel attempt.
Arguments download_seq {SeqRecord} SeqIO_records self seq_id rettype retries.
Arguments roundtrip {SeqRecord} encode seq.
Arguments append_all {SeqRecord} encode seqs payload.
Arguments batches_loop {SeqRecord} SeqIO_records encode self batches payload.
Arguments download {SeqRecord} SeqIO_records encode set_listing self query.
Arguments fetched {SeqRecord} SeqIO_records self w n seq_id rettype.

(** What is known of [list(s)] for a set [s]: every element once, in some
    order. *)
Definition lists_the_set (listing : gset string → list string) : Prop :=
  ∀ s, listing s ≡ₚ elements s.

(** The same services, whatever has been recorded. *)
Definition same_services (w w' : world) : Prop :=
  esearch w' = esearch w ∧ esummary w' = esummary w.

(** The world after a fetch. *)
Definition fetch_world (w : world) (seq_id : list string) (rettype : string) : world :=
  {| esearch := esearch w; esummary := esummary w; efetch := efetch w;
     fetches := S (fetches w); trace := trace w ++ [EvEfetch seq_id rettype] |}.

(** The world after [k] failed attempts. *)
Definition retried (w : world) (seq_id : list string) (rettype : string)
    (retries attempt : Z) (k : nat) : world :=
  {| esearch := esearch w; esummary := esummary w; efetch := efetch w;
     fetches := (fetches w + k)%nat;
     trace := trace w ++ retry_events seq_id rettype retries attempt k |}.

(** Sample database: three IDs on three pages, the second one too long;
    the fetches answer as [script] says. *)
Definition summary_of (id : string) (bp : Z) : summary :=
  {| Length := Ok bp; Id := Ok id |}.

Definition database (script : nat → res string) : world :=
  {| esearch := λ _ _ start _,
       Ok {| Count := Ok 3;
             IdList := if start =? 0 then ["AY166955"]
                       else if start =? 1 then ["KJ858961"] else ["KJ858801"] |};
     esummary := λ _ ids,
       if String.eqb ids "AY166955" then Ok [summary_of "AY166955" 100]
       else if String.eqb ids "KJ858961" then Ok [summary_of "KJ858961" 6000]
       else Ok [summary_of "KJ858801" 5000];
     efetch := λ n _ _, script n;
     fetches := 0;
     trace := [] |}.

Definition fasta_reader : NCBI :=
  {| max_bp := 5000; db := "nucleotide"; step := 1; rettype := "fasta" |}.

Definition no_records : string → string → res (list unit) := λ _ _, Ok [].

Definition incomplete_once (text : string) (n : nat) : res string :=
  match n with
  | O => Raise IncompleteRead
  | S _ => Ok text
  end.

Definition one_fasta : string := ">AY166955" +:+ nl +:+ "ACGT" +:+ nl +:+ nl.

Definition no_encoding : unit → res value := λ _, Ok VNone.

End NCBI.

(* ===================================================================== *)
(** ** More words about the data of the three providers *)
(* ===================================================================== *)

Module COLData.
Import Py IO COL.

(** A candidate whose [usage] the code can read: an object whose [usage] is
    an object or null. *)
Definition usage_readable (c : value) : bool :=
  is_object c &&
  match field "usage" c with VNone | VDict _ => true | _ => false end.

(** An object whose [id] is a string or is missing. *)
Definition id_absent_or_str (c : value) : bool :=
  match c with
  | VDict kv =>
      match dict_lookup "id" kv with
      | None | Some (VStr _) => true
      | Some _ => false
      end
  | _ => false
  end.

(** What the GET and the test of the status code leave in the trace. *)
Definition requested (query : string) (code : Z) : list event :=
  EvGet (url query) ::
  if code =? 200 then [] else [EvLogError "COL response code: %s" code].

End COLData.

Module INaturalistData.
Import Py IO INaturalist.

(** [x["name"] == query] is false. *)
Definition not_named (query : string) (x : value) : bool :=
  match named query x with Ok false => true | _ => false end.

(** [x["photo"]["license_code"] in photo_license] is false. *)
Definition unlicensed (x : value) : bool :=
  match licensed x with Ok false => true | _ => false end.

(** The taxon has no default photo, or one whose license code is null or
    empty (lines 78-81 give [None]). *)
Definition no_licensed_default (results_filtered : value) : bool :=
  match getitem results_filtered "default_photo" with
  | Ok VNone => true
  | Ok dp =>
      match getitem dp "license_code" with
      | Ok lc => negb (truthy lc)
      | Raise _ => false
      end
  | Raise _ => false
  end.

(** What the detail endpoint answers with: one result with its photos. *)
Definition detail (taxon_photos : list value) : value :=
  VDict [("results", VList [VDict [("taxon_photos", VList taxon_photos)]])].

End INaturalistData.

Module NCBIData.
Import Py IO NCBI.

(** A summary whose [Length] and [Id] read without an exception. *)
Definition readable (s : summary) : bool :=
  match Length s, Id s with
  | Ok _, Ok _ => true
  | _, _ => false
  end.

(** [start] is one of [range(0, total, step)] for a positive [step]. *)
Definition page_start (total step start : Z) : Prop :=
  ∃ k : nat, start = Z.of_nat k * step ∧ start < total.

(** [handle.read().split('\n\n')[:-1]] as JSON strings (lines 116 and 42). *)
Definition fasta_blocks (text : string) : list value :=
  map VStr (removelast (split (nl +:+ nl) text)).

End NCBIData.

(* ===================================================================== *)
(** ** biodumpy/inputs/NCBI.py: the static methods [taxonomy_id] and [fasta] *)
(* ===================================================================== *)

Module NCBIStatic.
Import Py IO.

Inductive event :=
| EvEsearch (db term : string)                (* Entrez.esearch, retmode='xml' *)
| EvEfetch (db : string) (id : list string)   (* Entrez.efetch, retmode='xml' *)
| EvFasta (db id : string).                   (* Entrez.efetch, rettype='fasta' *)

(** [Entrez.email], which both methods set, and the services they call:
    the search read by [Entrez.read], the records read from a fetch, and the
    text read from a FASTA fetch. *)
Record world := {
  email : string;
  esearch : string → string → res NCBI.esearch_record;
  efetch_records : string → list string → res value;
  efetch_text : string → string → res string;
  trace : list event;
}.

Definition world_with (w : world) (events : list event) : world :=
  {| email := email w; esearch := esearch w; efetch_records := efetch_records w;
     efetch_text := efetch_text w; trace := trace w ++ events |}.

Definition emit (e : event) : M world unit :=
  modify (λ w, world_with w [e]).

(** [Entrez.email = mail] *)
Definition set_email (mail : string) : M world unit :=
  modify (λ w, {| email := mail; esearch := esearch w;
                  efetch_records := efetch_records w; efetch_text := efetch_text w;
                  trace := trace w |}).

Definition Entrez_esearch (db term : string) : M world NCBI.esearch_record :=
  emit (EvEsearch db term) ;;;
  w <~ get ;;
  lift (esearch w db term).

Definition Entrez_efetch (db : string) (id : list string) : M world value :=
  emit (EvEfetch db id) ;;;
  w <~ get ;;
  lift (efetch_records w db id).

Definition Entrez_efetch_fasta (db id : string) : M world string :=
  emit (EvFasta db id) ;;;
  w <~ get ;;
  lift (efetch_text w db id).

(** The default of the argument [mail] of both methods. *)
Definition default_mail : string := "A.N.Other@example.com".

(** *** [fasta] (lines 193-228) *)

(** Lines 219-226, with [fasta_tot] threaded through. *)
Fixpoint fasta_loop (db : string) (query : list string) (fasta_tot : list string)
  : M world (list string) :=
  match query with
  | [] => ret fasta_tot
  | seq :: rest =>
      text <~ Entrez_efetch_fasta db seq ;;
      fasta_loop db rest (fasta_tot ++ [text])
  end.

Definition fasta (query : list string) (db mail : string) : M world (list string) :=
  set_email mail ;;;
  fasta_loop db query [].

(** *** [taxonomy_id] (lines 136-190) *)

(** [lineage is True] *)
Definition is_True (v : value) : bool :=
  match v with VBool true => true | _ => false end.

(** [d.get(k, default)] *)
Definition dict_get_or (v : value) (k : string) (d : value) : res value :=
  match v with
  | VDict kv => Ok (default d (dict_lookup k kv))
  | _ => Raise AttributeError
  end.

(** [str.split()] splits at the characters of which [str.isspace] holds:
    U+0009 to U+000D, U+001C to U+0020, U+0085, U+00A0, U+1680, U+2000 to
    U+200A, U+2028, U+2029, U+202F, U+205F and U+3000. The first ones are
    one byte each. *)
Definition is_space (c : ascii) : bool :=
  let n := nat_of_ascii c in
  ((9 <=? n) && (n <=? 13) || (28 <=? n) && (n <=? 32))%nat.

(** U+0085 and U+00A0 are the bytes C2 85 and C2 A0. *)
Definition is_space2 (a b : ascii) : bool :=
  let a := nat_of_ascii a in
  let b := nat_of_ascii b in
  ((a =? 194) && ((b =? 133) || (b =? 160)))%nat.

(** U+1680 is E1 9A 80; U+2000 to U+200A, U+2028, U+2029 and U+202F are
    E2 80 followed by 80 to 8A, A8, A9 and AF; U+205F is E2 81 9F; U+3000
    is E3 80 80. *)
Definition is_space3 (a b c : ascii) : bool :=
  let a := nat_of_ascii a in
  let b := nat_of_ascii b in
  let c := nat_of_ascii c in
  ((a =? 225) && (b =? 154) && (c =? 128)
   || (a =? 226) && (b =? 128)
      && ((128 <=? c) && (c <=? 138) || (c =? 168) || (c =? 169) || (c =? 175))
   || (a =? 226) && (b =? 129) && (c =? 159)
   || (a =? 227) && (b =? 128) && (c =? 128))%nat.

(** The number of bytes of the whitespace character that [s] begins with;
    0 when it begins with none. *)
Definition space_width (s : string) : nat :=
  match s with
  | EmptyString => 0
  | String a r =>
      if is_space a then 1
      else
        match r with
        | EmptyString => 0
        | String b r' =>
            if is_space2 a b then 2
            else
              match r' with
              | EmptyString => 0
              | String c _ => if is_space3 a b c then 3 else 0
              end
        end
  end.

(** [s.split()]: the words between runs of whitespace. [skip] counts the
    bytes of a whitespace character still to pass. *)
Fixpoint split_ws_go (skip : nat) (cur s : string) : list string :=
  match s with
  | EmptyString => if String.eqb cur "" then [] else [cur]
  | String c s' =>
      match skip with
      | S k => split_ws_go k cur s'
      | O =>
          match space_width s with
          | O => split_ws_go 0 (cur +:+ String c "") s'
          | S k =>
              if String.eqb cur "" then split_ws_go k "" s'
              else cur :: split_ws_go k "" s'
          end
      end
  end.

Definition split_ws (s : string) : list string := split_ws_go 0 "" s.

(** [name.split()[-1]] *)
Definition last_word (name : value) : res value :=
  match name with
  | VStr s => rbind (list_index (split_ws s) (-1)) (λ w, Ok (VStr w))
  | _ => Raise AttributeError
  end.

Definition taxonomy_dict (TaxId ScientificName Rank : value) : value :=
  VDict [("TaxId", TaxId); ("ScientificName", ScientificName); ("Rank", Rank)].

(** Lines 172-176 *)
Definition ancestor (taxonomy_info : value) : res value :=
  rbind (dict_get_or taxonomy_info "TaxId" (VStr "")) (λ t,
  rbind (dict_get_or taxonomy_info "ScientificName" (VStr "")) (λ n,
  rbind (dict_get_or taxonomy_info "Rank" (VStr "")) (λ r,
  Ok (taxonomy_dict t n r)))).

(** The loop of lines 170-179, [lin] threaded through. *)
Fixpoint ancestors (infos : list value) (lin : list value) : res (list value) :=
  match infos with
  | [] => Ok lin
  | taxonomy_info :: rest =>
      rbind (ancestor taxonomy_info) (λ d, ancestors rest (lin ++ [d]))
  end.

(** [records[0][k]] *)
Definition record0 (records : value) (k : string) : res value :=
  rbind (getitem_int records 0) (λ r, getitem r k).

Definition taxonomy_id (taxon : string) (lineage : value) (mail : string)
  : M world value :=
  set_email mail ;;;
  taxon_id <~ Entrez_esearch "Taxonomy" (taxon +:+ "[All Names]") ;;
  count <~ lift (NCBI.Count taxon_id) ;;
  if 0 <? count then
    records <~ Entrez_efetch "Taxonomy" (NCBI.IdList taxon_id) ;;
    if is_True lineage then
      infos <~ lift (rbind (record0 records "LineageEx") py_iter) ;;
      lin <~ lift (ancestors infos []) ;;
      t <~ lift (record0 records "TaxId") ;;
      n <~ lift (rbind (record0 records "ScientificName") last_word) ;;
      r <~ lift (record0 records "Rank") ;;
      ret (VList (lin ++ [taxonomy_dict t n r]))
    else
      t <~ lift (record0 records "TaxId") ;;
      n <~ lift (record0 records "ScientificName") ;;
      r <~ lift (record0 records "Rank") ;;
      ret (taxonomy_dict t n r)
  else ret (VList []).

(** *** Words for the properties *)

(** No whitespace character begins anywhere in [s]. *)
Fixpoint no_space (s : string) : bool :=
  match s with
  | EmptyString => true
  | String _ s' => Nat.eqb (space_width s) 0 && no_space s'
  end.

(** Empty, or ending in a whitespace character. *)
Fixpoint ends_blank (s : string) : bool :=
  match s with
  | EmptyString => true
  | String _ s' =>
      Nat.eqb (space_width s) (String.length s)
      || negb (String.eqb s' "") && ends_blank s'
  end.

(** The first [k] bytes of [s] continue a character. *)
Fixpoint continued (k : nat) (s : string) : bool :=
  match k, s with
  | O, _ => true
  | S k', String c s' => is_continuation c && continued k' s'
  | S _, EmptyString => false
  end.

(** U+00A0, the no-break space. *)
Definition nbsp : string := String (ascii_of_nat 194) (String (ascii_of_nat 160) "").

(** The entry of an ancestor that is an object: its three fields, the empty
    string for a missing one. *)
Definition ancestor_of (info : value) : value :=
  match info with
  | VDict kv =>
      taxonomy_dict (default (VStr "") (dict_lookup "TaxId" kv))
                    (default (VStr "") (dict_lookup "ScientificName" kv))
                    (default (VStr "") (dict_lookup "Rank" kv))
  | _ => VNone
  end.

Definition is_object (v : value) : bool :=
  match v with VDict _ => true | _ => false end.

(** Sample provider data: the taxonomy record of Alytes muletensis. *)
Definition rank (id name rank : string) : value :=
  VDict [("TaxId", VStr id); ("ScientificName", VStr name); ("Rank", VStr rank)].

Definition alytes : value :=
  VDict [("TaxId", VStr "8443"); ("ScientificName", VStr "Alytes muletensis");
         ("Rank", VStr "species");
         ("LineageEx", VList [rank "8292" "Amphibia" "class";
                              rank "8342" "Anura" "order";
                              rank "8441" "Alytes" "genus"])].

Definition taxonomy (count : Z) (records : value) (texts : string → res string) : world :=
  {| email := "someone@example.org";
     esearch := λ _ _, Ok {| NCBI.Count := Ok count; NCBI.IdList := ["8443"] |};
     efetch_records := λ _ _, Ok records;
     efetch_text := λ _ id, texts id;
     trace := [] |}.

End NCBIStatic.

(* ===================================================================== *)
(** ** Running the monad *)
(* ===================================================================== *)

Module IOFacts.
Import Py IO.

Lemma bind_run {W A B} (m : M W A) (k : A → M W B) (w : W) :
  bind m k w =
    match m w with
    | (w', Ok a) => k a w'
    | (w', Raise e) => (w', Raise e)
    end.
Proof. reflexivity. Qed.

Lemma lift_run {W A} (r : res A) (w : W) : lift r w = (w, r).
Proof. reflexivity. Qed.

Lemma ret_run {W A} (a : A) (w : W) : ret a w = (w, Ok a).
Proof. reflexivity. Qed.

Lemma try_except_run {W A} (m : M W A) (h : exn → M W A) (w : W) :
  try_except m h w =
    match m w with
    | (w', Ok a) => (w', Ok a)
    | (w', Raise e) => if is_Exception e then h e w' else (w', Raise e)
    end.
Proof.
  unfold try_except, except_Exception.
  destruct (m w) as [w' [a|e]]; [done|]. by destruct (is_Exception e).
Qed.

Lemma except_Exception_run {W A} (e : exn) (h : M W A) (w : W) :
  except_Exception e h w = if is_Exception e then h w else (w, Raise e).
Proof. unfold except_Exception. by destruct (is_Exception e). Qed.

End IOFacts.

(* ===================================================================== *)
(** ** Strings: [split], [replace] and indexing from the end *)
(* ===================================================================== *)

Module StringFacts.
Import Py INaturalist.

(** stdpp keeps [simpl] from unfolding [+:+]; these are its equations. *)
Lemma app_nil_l (b : string) : "" +:+ b = b.
Proof. reflexivity. Qed.

Lemma app_cons (x : ascii) (a b : string) : String x a +:+ b = String x (a +:+ b).
Proof. reflexivity. Qed.

Lemma app_assoc (a b c : string) : (a +:+ b) +:+ c = a +:+ (b +:+ c).
Proof.
  induction a as [|x a IH]; [done|]. rewrite !app_cons. by f_equal.
Qed.

Lemma app_empty_r (a : string) : a +:+ "" = a.
Proof.
  induction a as [|x a IH]; [done|]. rewrite app_cons. by f_equal.
Qed.

Lemma prefix_slash (c : ascii) (s : string) :
  String.prefix "/" (String c s) = Ascii.eqb c "/"%char.
Proof.
  change (String.prefix "/" (String c s))
    with (if Ascii.ascii_dec "/"%char c then String.prefix "" s else false).
  destruct (Ascii.ascii_dec "/"%char c) as [<-|Hne].
  - by destruct s.
  - symmetry. apply Ascii.eqb_neq. congruence.
Qed.

Lemma split_go_segment (a cur : string) :
  no_slash a = true → split_go "/" 0 cur a = [cur +:+ a].
Proof.
  revert cur. induction a as [|c a IH]; intros cur Ha.
  - by rewrite app_empty_r.
  - cbn [no_slash] in Ha. apply andb_true_iff in Ha as [Hc Ha].
    cbn [split_go]. rewrite prefix_slash.
    apply negb_true_iff in Hc. rewrite Hc, IH by done.
    by rewrite app_assoc.
Qed.

Lemma split_go_slash (a cur rest : string) :
  no_slash a = true →
  split_go "/" 0 cur (a +:+ "/" +:+ rest) = (cur +:+ a) :: split_go "/" 0 "" rest.
Proof.
  revert cur. induction a as [|c a IH]; intros cur Ha.
  - rewrite app_empty_r, app_nil_l, app_cons. cbn [split_go].
    by rewrite prefix_slash.
  - cbn [no_slash] in Ha. apply andb_true_iff in Ha as [Hc Ha].
    rewrite app_cons. cbn [split_go]. rewrite prefix_slash.
    apply negb_true_iff in Hc. rewrite Hc, IH by done.
    by rewrite app_assoc.
Qed.

Lemma split_concat (segs : list string) :
  segs ≠ [] → forallb no_slash segs = true →
  split "/" (String.concat "/" segs) = segs.
Proof.
  unfold split. induction segs as [|a segs IH]; [done|]. intros _ Hall.
  cbn [forallb] in Hall. apply andb_true_iff in Hall as [Ha Hall].
  destruct segs as [|b segs].
  - cbn [String.concat]. by rewrite split_go_segment.
  - change (String.concat "/" (a :: b :: segs))
      with (a +:+ "/" +:+ String.concat "/" (b :: segs)).
    rewrite split_go_slash by done. rewrite app_nil_l. f_equal. by apply IH.
Qed.

Lemma list_index_last2 {A} (l : list A) (a b : A) :
  list_index (l ++ [a; b]) (-2) = Ok a ∧ list_index (l ++ [a; b]) (-1) = Ok b.
Proof.
  unfold list_index. rewrite length_app. cbn [length].
  assert (Hn : Z.of_nat (length l + 2) = Z.of_nat (length l) + 2) by lia.
  rewrite Hn. split.
  - replace (-2 + (Z.of_nat (length l) + 2)) with (Z.of_nat (length l)) by lia.
    cbn [Z.ltb Z.compare].
    replace (Z.of_nat (length l) <? 0) with false by (symmetry; apply Z.ltb_ge; lia).
    replace (Z.of_nat (length l) + 2 <=? Z.of_nat (length l)) with false
      by (symmetry; apply Z.leb_gt; lia).
    cbn [orb]. rewrite Nat2Z.id.
    rewrite lookup_app_r by lia. by rewrite Nat.sub_diag.
  - replace (-1 + (Z.of_nat (length l) + 2)) with (Z.of_nat (S (length l))) by lia.
    cbn [Z.ltb Z.compare].
    replace (Z.of_nat (S (length l)) <? 0) with false by (symmetry; apply Z.ltb_ge; lia).
    replace (Z.of_nat (length l) + 2 <=? Z.of_nat (S (length l))) with false
      by (symmetry; apply Z.leb_gt; lia).
    cbn [orb]. rewrite Nat2Z.id.
    rewrite lookup_app_r by lia.
    by replace (S (length l) - length l)%nat with 1%nat by lia.
Qed.


(** *** [replace] *)

Lemma prefix_refl_app (p s : string) : String.prefix p (p +:+ s) = true.
Proof.
  induction p as [|c p IH]; [by destruct s|].
  rewrite app_cons. cbn [String.prefix]. by destruct (Ascii.ascii_dec c c).
Qed.

Lemma replace_go_skip (old new p s : string) :
  replace_go old new (String.length p) (p +:+ s) = replace_go old new 0 s.
Proof.
  induction p as [|c p IH]; [done|]. rewrite app_cons. cbn [String.length replace_go].
  exact IH.
Qed.

(** Without an occurrence of [old], nothing changes. *)
Lemma replace_none (old new s : string) :
  is_infix old s = false → replace old new s = s.
Proof.
  unfold replace. induction s as [|c s IH]; [done|].
  cbn [is_infix]. intros [Hp Hs]%orb_false_iff.
  cbn [replace_go]. rewrite Hp. f_equal. by apply IH.
Qed.

(** The first occurrence of [old] is replaced, and the replacement goes on
    behind it. *)
Lemma replace_occurrence (c : ascii) (old' new x y : string) :
  let old := String c old' in
  (∀ x1 x2, x = x1 +:+ x2 → x2 ≠ "" → String.prefix old (x2 +:+ old +:+ y) = false) →
  replace old new (x +:+ old +:+ y) = x +:+ new +:+ replace old new y.
Proof.
  intros old Hfirst. unfold replace. induction x as [|d x IH].
  - rewrite !app_nil_l. unfold old at 2. rewrite app_cons. cbn [replace_go].
    change (String c (old' +:+ y)) with (old +:+ y). rewrite prefix_refl_app.
    assert (Hlen : (String.length old - 1)%nat = String.length old')
      by (unfold old; cbn [String.length]; lia).
    rewrite Hlen. f_equal. apply replace_go_skip.
  - rewrite !app_cons. cbn [replace_go].
    change (String d (x +:+ old +:+ y)) with (String d x +:+ old +:+ y).
    rewrite (Hfirst "" (String d x)) by done. f_equal. apply IH.
    intros x1 x2 -> Hne. apply (Hfirst (String d x1) x2); done.
Qed.

End StringFacts.

(* ===================================================================== *)
(** ** Properties of [INaturalist._download] *)
(* ===================================================================== *)

Module INaturalistFacts.
Import Py IO IOFacts INaturalist StringFacts.

Lemma get_search_run u w :
  get_search u w = (world_with w [EvSearch u], search w u).
Proof. reflexivity. Qed.

Lemma get_taxon_run i w :
  get_taxon i w = (world_with w [EvTaxon i], taxon w i).
Proof. reflexivity. Qed.

(** Lines 95 and 98: for a URL whose segments between "/" end with [a]
    and [b], the image ID is [a/b] with every "square" replaced by
    "medium". *)
Lemma image_id_of_segments (segs : list string) (a b : string) :
  forallb no_slash (segs ++ [a; b]) = true →
  image_id_of (String.concat "/" (segs ++ [a; b])) =
    Ok (replace "square" "medium" (a +:+ "/" +:+ b)).
Proof.
  intros Hall. unfold image_id_of.
  rewrite split_concat by (done || by destruct segs).
  destruct (list_index_last2 segs a b) as [-> ->]. reflexivity.
Qed.

(** The example of the specification: a URL that ends in [/200/icon.jpg]. *)
Lemma image_id_icon (segs : list string) :
  forallb no_slash segs = true →
  image_id_of (String.concat "/" (segs ++ ["200"; "icon.jpg"])) = Ok "200/icon.jpg".
Proof.
  intros Hall. rewrite image_id_of_segments; [done|].
  rewrite forallb_app, Hall. reflexivity.
Qed.

(** *** The license of the photo returned *)

Lemma first_r_found {A} (c : A → res bool) (l : list A) (x : A) :
  first_r c l = Ok (Some x) → c x = Ok true.
Proof.
  induction l as [|y l IH]; [done|]. cbn [first_r].
  destruct (c y) as [[]|e] eqn:Hy; cbn [rbind]; [|done|done].
  by intros [= <-].
Qed.

(** On the path through the occurrences, the license returned is one of
    [photo_license] or null. *)
Lemma occurrence_photo_license query taxon_id w out :
  snd (occurrence_photo query taxon_id w) = Ok out →
  ∃ image license attribution,
    out = photo_details query image license attribution ∧
    (license = VNone ∨ in_strings license photo_license = true).
Proof.
  unfold occurrence_photo. rewrite bind_run, get_taxon_run.
  destruct (taxon w taxon_id) as [resp|e]; [|done].
  destruct (status_code resp =? 200);
    [|intros [= <-]; exists VNone, VNone, VNone; auto].
  rewrite bind_run, lift_run.
  destruct (rbind (json resp) _) as [results_id|e]; [|done].
  rewrite bind_run, lift_run.
  destruct (rbind (getitem_int results_id 0) _) as [photo_id|e]; [|done].
  rewrite bind_run, lift_run. destruct (py_iter photo_id) as [photos|e]; [|done].
  rewrite bind_run, lift_run.
  destruct (first_r licensed photos) as [[x|]|e] eqn:Hfound;
    [| intros [= <-]; exists VNone, VNone, VNone; auto | done].
  destruct (truthy x); [|intros [= <-]; exists VNone, VNone, VNone; auto].
  rewrite lift_run. cbn [snd]. apply first_r_found in Hfound.
  unfold licensed in Hfound. unfold chosen.
  destruct (getitem x "photo") as [p|e]; [|done]. cbn [rbind] in *.
  destruct (getitem p "url") as [u|e]; [|done]. cbn [rbind].
  destruct (image_id u) as [image|e]; [|done]. cbn [rbind].
  destruct (getitem p "license_code") as [lc|e]; [|done]. cbn [rbind] in *.
  destruct (getitem p "attribution") as [att|e]; [|done]. cbn [rbind].
  intros [= <-]. exists image, lc, att. split; [done|]. right. congruence.
Qed.

(** C1, where the code departs from it: a default photo is returned with
    whatever non-empty license code it has; [photo_license] is not
    consulted. *)
Theorem default_photo_license_unchecked query w body results rf taxon_id dp
    license url_photo image attribution :
  search w (url query) = Ok {| status_code := 200; json := Ok body |} →
  getitem body "results" = Ok (VList results) →
  first_r (named query) results = Ok (Some rf) →
  getitem rf "id" = Ok taxon_id →
  getitem rf "default_photo" = Ok dp →
  getitem dp "license_code" = Ok license →
  truthy license = true →
  getitem dp "url" = Ok url_photo →
  image_id url_photo = Ok image →
  getitem dp "attribution" = Ok attribution →
  snd (_download query w) = Ok (VList [photo_details query image license attribution]).
Proof.
  intros Hs Hres Hfirst Hid Hdp Hlc Ht Hurl Himg Hatt.
  unfold _download. rewrite bind_run, get_search_run, Hs. cbn [status_code negb Z.eqb Pos.eqb].
  rewrite bind_run, lift_run. cbn [json rbind]. rewrite Hres.
  rewrite bind_run, lift_run. cbn [py_iter].
  rewrite bind_run, lift_run, Hfirst.
  assert (Hrf : truthy rf = true).
  { apply first_r_found in Hfirst. unfold named in Hfirst.
    destruct rf as [| | | |l|[|p kv]]; done. }
  rewrite Hrf, bind_run, lift_run, Hid, bind_run, lift_run.
  unfold default_photo_info. rewrite Hdp. cbn [rbind].
  assert (Hnn : is_none dp = false) by (by destruct dp).
  rewrite Hnn. cbn [negb]. rewrite Hlc. cbn [rbind]. rewrite Ht, Hnn.
  rewrite bind_run, lift_run. unfold chosen. cbn [rbind].
  rewrite Hurl. cbn [rbind]. rewrite Himg. cbn [rbind]. rewrite Hlc. cbn [rbind].
  by rewrite Hatt.
Qed.

Lemma default_photo_license_unchecked_witness :
  let dp := photo (VStr "https://static.inaturalist.org/photos/7/square.jpg") (VStr "pd") in
  let rf := VDict [("name", VStr "Bufo roseus"); ("id", VInt 5); ("default_photo", dp)] in
  snd (_download "Bufo roseus" (provider [rf] [])) =
    Ok (VList [photo_details "Bufo roseus" (VStr "7/medium.jpg") (VStr "pd")
                 (VStr "(c) observer")]).
Proof.
  intros dp rf.
  apply (default_photo_license_unchecked "Bufo roseus" (provider [rf] [])
           (VDict [("results", VList [rf])]) [rf] rf (VInt 5) dp (VStr "pd")
           (VStr "https://static.inaturalist.org/photos/7/square.jpg"));
    reflexivity.
Defined.

(** The license code returned there is none of [photo_license]. *)
Lemma default_photo_outside_allow_list :
  let dp := photo (VStr "https://static.inaturalist.org/photos/7/square.jpg") (VStr "pd") in
  let rf := VDict [("name", VStr "Bufo roseus"); ("id", VInt 5); ("default_photo", dp)] in
  returned "license_code" (snd (_download "Bufo roseus" (provider [rf] []))) =
    Some (VStr "pd")
  ∧ in_strings (VStr "pd") photo_license = false.
Proof. split; reflexivity. Qed.

End INaturalistFacts.

(* ===================================================================== *)
(** ** Properties of [COL._download] *)
(* ===================================================================== *)

Module COLFacts.
Import Py IO IOFacts COL.

Lemma requests_get_run url w :
  requests_get url w = (world_with w [EvGet url], http w url).
Proof. reflexivity. Qed.

Lemma logging_error_run fmt arg w :
  logging_error fmt arg w = (world_with w [EvLogError fmt arg], Ok tt).
Proof. reflexivity. Qed.

Lemma input_run p w :
  input p w =
    match stdin w with
    | [] => (world_with w [EvInput p], Raise EOFError)
    | line :: rest =>
        ({| http := http w; stdin := rest; trace := trace w ++ [EvInput p] |}, Ok line)
    end.
Proof.
  unfold input, bind, emit, modify, get, raise, ret, world_with.
  cbn [stdin http trace]. destruct (stdin w); reflexivity.
Qed.

Lemma world_with_app w e1 e2 :
  world_with (world_with w e1) e2 = world_with w (e1 ++ e2).
Proof. unfold world_with. cbn [http stdin trace]. by rewrite <- app_assoc. Qed.

Lemma download_parse self query w resp :
  http w (url query) = Ok resp →
  _download self query w =
    parse self query resp
      (world_with w (EvGet (url query) ::
         if status_code resp =? 200 then []
         else [EvLogError "COL response code: %s" (status_code resp)])).
Proof.
  intros Hget. unfold _download.
  rewrite bind_run, requests_get_run, Hget, bind_run.
  destruct (status_code resp =? 200); cbn [negb].
  - done.
  - by rewrite logging_error_run, world_with_app.
Qed.

Lemma parse_empty self query resp payload empty w :
  json resp = Ok payload → getitem payload "empty" = Ok empty → truthy empty = true →
  parse self query resp w = (w, Ok (VList [record query VNone VNone VNone VNone])).
Proof.
  intros Hj He Ht. unfold parse.
  by rewrite bind_run, lift_run, Hj, bind_run, lift_run, He, Ht.
Qed.

Lemma parse_result self query resp payload empty result w :
  json resp = Ok payload → getitem payload "empty" = Ok empty → truthy empty = false →
  getitem payload "result" = Ok result →
  parse self query resp w =
    match disambiguate query result w with
    | (w', Ok x) => (w', shape self query x)
    | (w', Raise e) => (w', Raise e)
    end.
Proof.
  intros Hj He Ht Hr. unfold parse.
  rewrite bind_run, lift_run, Hj, bind_run, lift_run, He, Ht. cbv iota.
  rewrite bind_run, lift_run, bind_run, lift_run, Hr, bind_run.
  by destruct (disambiguate query result w) as [w' [x|e]].
Qed.

(** *** The disambiguation *)

Lemma item_id_inv c s :
  item_id c = Some s → ∃ kv, c = VDict kv ∧ dict_lookup "id" kv = Some (VStr s).
Proof.
  unfold item_id. destruct c as [| | | |l|kv]; try done.
  destruct (dict_lookup "id" kv) as [[]|] eqn:E; try done.
  intros [= ->]. eauto.
Qed.

Lemma has_str_id_inv c :
  has_str_id c = true → ∃ s, item_id c = Some s.
Proof. unfold has_str_id. destruct (item_id c); [eauto | done]. Qed.

Lemma ids_of_wf cands :
  forallb has_str_id cands = true → ids_of cands = Ok (map VStr (ids cands)).
Proof.
  unfold ids_of. induction cands as [|c cands IH]; [done|].
  cbn [forallb]. intros [Hc Hall]%andb_true_iff.
  destruct (has_str_id_inv _ Hc) as [s Hs].
  destruct (item_id_inv _ _ Hs) as (kv & -> & Hkv).
  cbn [comprehension contains dict_get rbind ids]. rewrite Hs, Hkv.
  cbn [rbind default]. rewrite IH by done. reflexivity.
Qed.

Lemma strings_of_map l : strings_of (map VStr l) = Ok l.
Proof. induction l as [|s l IH]; [done|]. cbn [map strings_of]. by rewrite IH. Qed.

Lemma with_id_wf a cands :
  forallb has_str_id cands = true →
  with_id a cands = Ok (List.filter (id_is a) cands).
Proof.
  unfold with_id. induction cands as [|c cands IH]; [done|].
  cbn [forallb]. intros [Hc Hall]%andb_true_iff.
  destruct (has_str_id_inv _ Hc) as [s Hs].
  destruct (item_id_inv _ _ Hs) as (kv & -> & Hkv).
  cbn [filter_r getitem List.filter]. unfold id_is. rewrite Hs, Hkv.
  cbn [rbind py_eq]. rewrite IH by done. cbn [rbind].
  by destruct (String.eqb s a).
Qed.

Lemma disambiguate_single query result n w :
  py_len result = Ok n → (n ≤ 1)%nat → disambiguate query result w = (w, Ok result).
Proof.
  intros Hn Hle. unfold disambiguate. rewrite bind_run, lift_run, Hn.
  destruct (Nat.ltb_spec 1 n); [lia | done].
Qed.

Lemma disambiguate_many query cands answer rest w :
  (1 < length cands)%nat → forallb has_str_id cands = true →
  stdin w = answer :: rest →
  disambiguate query (VList cands) w =
    ({| http := http w; stdin := rest;
        trace := trace w ++ [EvInput (prompt query (String.concat ", " (ids cands)))] |},
     Ok (if String.eqb answer "Skip" then VList [skipped]
         else VList (List.filter (id_is answer) cands))).
Proof.
  intros Hlen Hwf Hin. unfold disambiguate.
  rewrite bind_run, lift_run. cbn [py_len].
  destruct (Nat.ltb_spec 1 (length cands)); [|lia].
  rewrite bind_run, lift_run. cbn [py_iter].
  rewrite bind_run, lift_run, ids_of_wf by done.
  rewrite bind_run, lift_run. unfold str_join. rewrite strings_of_map. cbn [rbind].
  rewrite bind_run, input_run, Hin.
  destruct (String.eqb answer "Skip"); [done|].
  rewrite bind_run, lift_run, bind_run, lift_run, with_id_wf by done.
  done.
Qed.

(** *** The record of the resolved candidate *)

Lemma getitem_int_head c rest : getitem_int (VList (c :: rest)) 0 = Ok c.
Proof.
  unfold getitem_int, list_index. cbn [length Z.ltb Z.compare].
  destruct (Z.leb_spec (Z.of_nat (S (length rest))) 0); [lia | done].
Qed.

Lemma getitem_int_nil : getitem_int (VList []) 0 = Raise IndexError.
Proof. reflexivity. Qed.

Lemma shape_head self query c rest :
  shape self query (VList (c :: rest)) = shape self query (VList [c]).
Proof. unfold shape. by rewrite !getitem_int_head. Qed.

Lemma strip_entries sid entries :
  forallb (has_field "id") entries = true →
  filter_r (λ item, rbind (getitem item "id") (λ i, Ok (negb (py_eq i sid)))) entries
  = Ok (List.filter (λ x, negb (py_eq (field "id" x) sid)) entries).
Proof.
  induction entries as [|e entries IH]; [done|].
  cbn [forallb]. intros [He Hall]%andb_true_iff.
  destruct e as [| | | |l|kv]; try done. cbn [has_field] in He.
  cbn [filter_r getitem List.filter field].
  destruct (dict_lookup "id" kv) as [i|]; [|done].
  cbn [rbind default]. rewrite IH by done. reflexivity.
Qed.

Lemma strip_synonym_wf self c :
  wf_candidate c = true →
  strip_synonym self (field "status" (field "usage" c)) (field "usage" c)
    (field "classification" c) = Ok (classification_for self c).
Proof.
  unfold wf_candidate, strip_synonym, classification_for.
  intros [[_ Hu]%andb_true_iff Hc]%andb_true_iff.
  destruct (check_syn self && negb (in_strings (field "status" (field "usage" c)) ACCEPTED_TERMS));
    [|done].
  assert (Hid : (if truthy (field "usage" c) then dict_get (field "usage" c) "id"
                 else Ok VNone) = Ok (field "id" (field "usage" c))).
  { destruct (field "usage" c) as [| | | |l|[|p kv]]; try done. }
  rewrite Hid. cbn [rbind].
  destruct (field "classification" c) as [| | | |[|e es]|kv]; try done.
  cbn [truthy py_iter rbind]. by rewrite strip_entries.
Qed.

Lemma shape_wf self query c :
  wf_candidate c = true →
  shape self query (VList [c]) = Ok (VList [record_of self query c]).
Proof.
  intros Hwf. pose proof (strip_synonym_wf self c Hwf) as Hstrip.
  unfold wf_candidate in Hwf.
  apply andb_true_iff in Hwf as [[Hobj Hu]%andb_true_iff _].
  destruct c as [| | | |l|kv]; try done.
  unfold shape. rewrite getitem_int_head. cbn [rbind dict_get].
  change (default VNone (dict_lookup "usage" kv)) with (field "usage" (VDict kv)).
  change (default VNone (dict_lookup "classification" kv))
    with (field "classification" (VDict kv)).
  assert (Hst : (if truthy (field "usage" (VDict kv))
                 then dict_get (field "usage" (VDict kv)) "status"
                 else Ok VNone) = Ok (field "status" (field "usage" (VDict kv)))).
  { destruct (field "usage" (VDict kv)) as [| | | |l|[|p ukv]]; try done. }
  rewrite Hst. cbn [rbind]. rewrite Hstrip. reflexivity.
Qed.

(** What is returned does not depend on the events recorded so far. *)
Lemma disambiguate_frame query result w1 w2 :
  stdin w1 = stdin w2 →
  snd (disambiguate query result w1) = snd (disambiguate query result w2).
Proof.
  intros Hin. unfold disambiguate. rewrite !bind_run, !lift_run.
  destruct (py_len result) as [n|e]; [|done].
  destruct (1 <? n)%nat; [|done].
  rewrite !bind_run, !lift_run. destruct (py_iter result) as [items|e]; [|done].
  rewrite !bind_run, !lift_run. destruct (ids_of items) as [l|e]; [|done].
  rewrite !bind_run, !lift_run. destruct (str_join ", " l) as [j|e]; [|done].
  rewrite !bind_run, !input_run, <- Hin. destruct (stdin w1) as [|a rest]; [done|].
  destruct (String.eqb a "Skip"); [done|].
  rewrite !bind_run, !lift_run, !bind_run, !lift_run.
  by destruct (with_id a items).
Qed.

Lemma parse_frame self query resp w1 w2 :
  stdin w1 = stdin w2 →
  snd (parse self query resp w1) = snd (parse self query resp w2).
Proof.
  intros Hin. unfold parse. rewrite !bind_run, !lift_run.
  destruct (json resp) as [payload|e]; [|done].
  rewrite !bind_run, !lift_run.
  destruct (getitem payload "empty") as [empty|e]; [|done].
  destruct (truthy empty); [done|].
  rewrite !bind_run, !lift_run, !bind_run, !lift_run.
  destruct (getitem payload "result") as [result|e]; [|done].
  rewrite !bind_run. pose proof (disambiguate_frame query result w1 w2 Hin) as Hd.
  destruct (disambiguate query result w1) as [w1' [x1|e1]],
           (disambiguate query result w2) as [w2' [x2|e2]];
    cbn [snd] in Hd; try done; by inversion Hd.
Qed.

Lemma download_result self query w sc payload empty result :
  http w (url query) = Ok {| status_code := sc; json := Ok payload |} →
  getitem payload "empty" = Ok empty → truthy empty = false →
  getitem payload "result" = Ok result →
  snd (_download self query w) =
    rbind (snd (disambiguate query result w)) (shape self query).
Proof.
  intros Hget He Ht Hr. rewrite (download_parse _ _ _ _ Hget).
  set (w1 := world_with w _).
  rewrite (parse_result self query _ payload empty result w1) by done.
  rewrite (disambiguate_frame query result w w1) by done.
  by destruct (disambiguate query result w1) as [w' [x|e]].
Qed.

Lemma filter_id_is_nil answer cands :
  ¬ In answer (ids cands) → List.filter (id_is answer) cands = [].
Proof.
  induction cands as [|c cands IH]; [done|]. cbn [ids List.filter]. unfold id_is.
  destruct (item_id c) as [s|]; [|done].
  cbn [In]. intros Hn. destruct (String.eqb_spec s answer) as [->|Hne].
  - exfalso. apply Hn. by left.
  - apply IH. intros Hin. apply Hn. by right.
Qed.








(** *** What [COL._download] returns *)

(** C4. When the provider marks the response empty, [_download] returns the
    one-element list whose record has [origin_taxon] equal to the query and
    every other field null, whatever the status code and [check_syn]. *)
Theorem empty_response_null_record self query w resp payload empty :
  http w (url query) = Ok resp →
  json resp = Ok payload →
  getitem payload "empty" = Ok empty →
  truthy empty = true →
  snd (_download self query w) =
    Ok (VList [VDict [("origin_taxon", VStr query); ("taxon_id", VNone);
                      ("status", VNone); ("usage", VNone);
                      ("classification", VNone)]]).
Proof.
  intros Hget Hj He Ht. rewrite (download_parse _ _ _ _ Hget).
  by rewrite (parse_empty _ _ _ _ _ _ Hj He Ht).
Qed.

Lemma empty_response_null_record_witness :
  snd (_download {| check_syn := false |} "Unknown Fake Taxonname"
         (provider 200 (VDict [("empty", VBool true)]) [])) =
    Ok (VList [VDict [("origin_taxon", VStr "Unknown Fake Taxonname");
                      ("taxon_id", VNone); ("status", VNone); ("usage", VNone);
                      ("classification", VNone)]]).
Proof.
  apply (empty_response_null_record _ _ _
           {| status_code := 200; json := Ok (VDict [("empty", VBool true)]) |}
           (VDict [("empty", VBool true)]) (VBool true)); reflexivity.
Defined.

(** C6. A status code other than 200 is not raised on. The error is
    logged, and then the body is parsed as JSON as for any response: what
    [response.json()] raises is what the call raises, and a body that
    parses is read on the normal path (its [empty] flag, then its [result],
    the disambiguation and the record), the GET and the logged error being
    the events so far. What is returned is what a 200 response with the
    same body returns. *)
Theorem non_200_logged_then_parsed self query w resp :
  http w (url query) = Ok resp →
  status_code resp ≠ 200 →
  let logged :=
    world_with w [EvGet (url query);
                  EvLogError "COL response code: %s" (status_code resp)] in
  _download self query w =
    match json resp with
    | Raise e => (logged, Raise e)
    | Ok payload =>
        match getitem payload "empty" with
        | Raise e => (logged, Raise e)
        | Ok empty =>
            if truthy empty then
              (logged, Ok (VList [record query VNone VNone VNone VNone]))
            else
              match getitem payload "result" with
              | Raise e => (logged, Raise e)
              | Ok result =>
                  match disambiguate query result logged with
                  | (w', Ok resolved) => (w', shape self query resolved)
                  | (w', Raise e) => (w', Raise e)
                  end
              end
        end
    end
  ∧ snd (_download self query w) =
      snd (_download self query
             {| http := λ _, Ok {| status_code := 200; json := json resp |};
                stdin := stdin w; trace := trace w |}).
Proof.
  intros Hget Hcode logged. rewrite (download_parse _ _ _ _ Hget).
  destruct (Z.eqb_spec (status_code resp) 200) as [|_]; [done|].
  split.
  - fold logged. unfold parse. rewrite bind_run, lift_run.
    destruct (json resp) as [payload|e] eqn:Hjson; [|done].
    rewrite bind_run, lift_run.
    destruct (getitem payload "empty") as [empty|e]; [|done].
    destruct (truthy empty); [done|].
    rewrite bind_run, lift_run, bind_run, lift_run.
    destruct (getitem payload "result") as [result|e]; [|done].
    rewrite bind_run.
    by destruct (disambiguate query result logged) as [w' [resolved|e]].
  - rewrite (download_parse _ _ _ {| status_code := 200; json := json resp |}) by done.
    cbn [status_code Z.eqb Pos.eqb].
    match goal with
    | |- _ = snd (parse _ _ _ ?w2) =>
        transitivity (snd (parse self query resp w2)); [by apply parse_frame|]
    end.
    reflexivity.
Qed.

Lemma non_200_logged_then_parsed_witness :
  let self := {| check_syn := false |} in
  let logged w := world_with w [EvGet (url "Bufo roseus");
                                EvLogError "COL response code: %s" 404] in
  let missing := provider 404 (VDict [("empty", VBool true)]) [] in
  let broken := {| http := λ _, Ok {| status_code := 404; json := Raise JSONDecodeError |};
                   stdin := []; trace := [] |} in
  _download self "Bufo roseus" missing =
    (logged missing, Ok (VList [record "Bufo roseus" VNone VNone VNone VNone]))
  ∧ _download self "Bufo roseus" broken = (logged broken, Raise JSONDecodeError).
Proof.
  intros self logged missing broken. split.
  - apply (proj1 (non_200_logged_then_parsed self "Bufo roseus" missing
                    {| status_code := 404; json := Ok (VDict [("empty", VBool true)]) |}
                    eq_refl ltac:(cbn [status_code]; lia))).
  - apply (proj1 (non_200_logged_then_parsed self "Bufo roseus" broken
                    {| status_code := 404; json := Raise JSONDecodeError |}
                    eq_refl ltac:(cbn [status_code]; lia))).
Defined.




(** C10. With more than one candidate, each with a string ID, an answer
    that is neither "Skip" nor the ID of a candidate raises [IndexError]. *)
Theorem unknown_answer_raises self query w sc payload empty cands answer rest :
  http w (url query) = Ok {| status_code := sc; json := Ok payload |} →
  getitem payload "empty" = Ok empty → truthy empty = false →
  getitem payload "result" = Ok (VList cands) →
  (1 < length cands)%nat →
  forallb has_str_id cands = true →
  stdin w = answer :: rest →
  answer ≠ "Skip" →
  ¬ In answer (ids cands) →
  snd (_download self query w) = Raise IndexError.
Proof.
  intros Hget He Ht Hr Hlen Hids Hin Hne Hnot.
  rewrite (download_result _ _ _ _ _ _ _ Hget He Ht Hr).
  rewrite (disambiguate_many _ _ _ _ _ Hlen Hids Hin). cbn [snd rbind].
  apply String.eqb_neq in Hne. rewrite Hne.
  by rewrite filter_id_is_nil.
Qed.

(** C9. With [check_syn] set: when the status of the resolved candidate is
    an accepted one, the classification returned is the provider's; when it
    is not, the entries whose [id] equals the [id] of the usage are gone and
    the others are kept as they are, in their order (a classification
    without entries comes back as null). *)
Theorem check_syn_classification self query w sc payload empty result c rest :
  http w (url query) = Ok {| status_code := sc; json := Ok payload |} →
  getitem payload "empty" = Ok empty → truthy empty = false →
  getitem payload "result" = Ok result →
  snd (disambiguate query result w) = Ok (VList (c :: rest)) →
  wf_candidate c = true →
  check_syn self = true →
  returned "classification" (snd (_download self query w)) =
    Some (if in_strings (field "status" (field "usage" c)) ACCEPTED_TERMS
          then field "classification" c
          else match field "classification" c with
               | VList (e :: es) =>
                   VList (List.filter
                            (λ x, negb (py_eq (field "id" x)
                                          (field "id" (field "usage" c))))
                            (e :: es))
               | _ => VNone
               end).
Proof.
  intros Hget He Ht Hr Hres Hwf Hsyn.
  rewrite (download_result _ _ _ _ _ _ _ Hget He Ht Hr), Hres. cbn [rbind].
  rewrite shape_head, shape_wf by done.
  unfold record_of, record, returned, classification_for. cbn [dict_lookup String.eqb].
  rewrite Hsyn. cbn [andb].
  by destruct (in_strings (field "status" (field "usage" c)) ACCEPTED_TERMS).
Qed.

Lemma check_syn_classification_witness :
  let c := candidate "NPDX" "synonym" "NPDX" ["N"; "4LQWC"; "NPDX"] in
  returned "classification"
    (snd (_download {| check_syn := true |} "Bufo roseus"
            (provider 200 (found [c]) []))) =
    Some (VList [VDict [("id", VStr "N")]; VDict [("id", VStr "4LQWC")]]).
Proof.
  intros c.
  apply (check_syn_classification {| check_syn := true |} "Bufo roseus"
           (provider 200 (found [c]) []) 200 (found [c]) (VBool false)
           (VList [c]) c []); reflexivity.
Defined.

(** C10 without the string IDs: the same answer, neither "Skip" nor an ID,
    ends in another exception. A candidate without an [id] makes the filter
    of line 82 raise [KeyError]; IDs that are numbers make the [join] of
    line 76 raise [TypeError] before anything is asked. *)
Lemma unknown_answer_other_exception :
  let self := {| check_syn := false |} in
  (let cands := [candidate "4LQWC" "accepted" "4LQWC" ["N"; "4LQWC"];
                 VDict [("usage", VNone)]] in
   (1 < length cands)%nat ∧ "NPDX" ≠ "Skip" ∧ ¬ In "NPDX" (ids cands)
   ∧ snd (_download self "Bufo roseus" (provider 200 (found cands) ["NPDX"]))
     = Raise KeyError)
  ∧ (let cands := [VDict [("id", VInt 5)]; VDict [("id", VInt 7)]] in
     (1 < length cands)%nat ∧ "NPDX" ≠ "Skip" ∧ ¬ In "NPDX" (ids cands)
     ∧ snd (_download self "Bufo roseus" (provider 200 (found cands) ["NPDX"]))
       = Raise TypeError).
Proof.
  intros self. split; intros cands; (split_and!; [cbn [length cands]; lia | done | | reflexivity]).
  - cbn. intros [H|[]]. discriminate H.
  - cbn. intros [].
Qed.

Lemma unknown_answer_raises_witness :
  let cands := [candidate "4LQWC" "accepted" "4LQWC" ["N"; "4LQWC"];
                candidate "NPDX" "synonym" "NPDX" ["N"; "4LQWC"; "NPDX"]] in
  snd (_download {| check_syn := false |} "Bufo roseus"
         (provider 200 (found cands) ["skip"])) = Raise IndexError.
Proof.
  intros cands.
  apply (unknown_answer_raises {| check_syn := false |} "Bufo roseus"
           (provider 200 (found cands) ["skip"]) 200 (found cands) (VBool false)
           cands "skip" []); try reflexivity.
  - cbn [length cands]. lia.
  - discriminate.
  - cbn. intros [H|[H|[]]]; discriminate H.
Defined.
End COLFacts.

(* ===================================================================== *)
(** ** Properties of [NCBI.download_ids], [NCBI.download_seq] and [NCBI.download] *)
(* ===================================================================== *)

Module NCBIFacts.
Import Py IO IOFacts NCBI.

(** Batches of a positive size hold every element, in order. *)
Lemma split_to_batches_go_concat {A} (n fuel : nat) (l : list A) :
  (0 < n)%nat → (length l ≤ fuel)%nat →
  concat (split_to_batches_go fuel n l) = l.
Proof.
  intros Hn. revert l. induction fuel as [|fuel IH]; intros l Hlen.
  - destruct l; [done | cbn [length] in Hlen; lia].
  - destruct l as [|x l]; [done|]. cbn [split_to_batches_go concat].
    rewrite IH; [apply take_drop|].
    rewrite length_drop. cbn [length] in *. lia.
Qed.

Lemma split_to_batches_concat {A} (l : list A) (batch_size : Z) :
  0 < batch_size → concat (split_to_batches l batch_size) = l.
Proof.
  intros Hpos. unfold split_to_batches.
  destruct (Z.leb_spec batch_size 0); [lia|].
  apply split_to_batches_go_concat; lia.
Qed.

Lemma print_run m w : print m w = (world_with w [EvPrint m], Ok tt).
Proof. reflexivity. Qed.

Lemma logging_warning_run m w :
  logging_warning m w = (world_with w [EvWarning m], Ok tt).
Proof. reflexivity. Qed.

Lemma logging_failure_run m w : logging_error m w = (world_with w [EvError m], Ok tt).
Proof. reflexivity. Qed.

Lemma time_sleep_run n w : time_sleep n w = (world_with w [EvSleep n], Ok tt).
Proof. reflexivity. Qed.

Lemma Entrez_esearch_run d term start retmax w :
  Entrez_esearch d term start retmax w =
    (world_with w [EvEsearch d term start retmax], esearch w d term start retmax).
Proof. reflexivity. Qed.

Lemma Entrez_esummary_run d ids w :
  Entrez_esummary d ids w = (world_with w [EvEsummary d ids], esummary w d ids).
Proof. reflexivity. Qed.

(** *** [download_ids] *)

Lemma same_services_refl w : same_services w w.
Proof. done. Qed.

Lemma same_services_with w events : same_services w (world_with w events).
Proof. done. Qed.

Lemma same_services_trans w1 w2 w3 :
  same_services w1 w2 → same_services w2 w3 → same_services w1 w3.
Proof. intros [? ?] [? ?]. split; congruence. Qed.

Lemma add_summaries_spec self summaries acc acc' r :
  add_summaries self summaries acc = (acc', r) →
  ∀ i, i ∈ acc' →
    i ∈ acc ∨ ∃ s bp, In s summaries ∧ Id s = Ok i ∧ Length s = Ok bp ∧ bp <= max_bp self.
Proof.
  revert acc. induction summaries as [|s summaries IH]; intros acc Hrun i Hi.
  - cbn [add_summaries] in Hrun. left. congruence.
  - cbn [add_summaries] in Hrun.
    assert (Hrest : ∀ acc0, add_summaries self summaries acc0 = (acc', r) →
              i ∈ acc0 ∨ ∃ s0 bp, In s0 (s :: summaries) ∧ Id s0 = Ok i ∧
                                  Length s0 = Ok bp ∧ bp <= max_bp self).
    { intros acc0 H0. destruct (IH _ H0 i Hi) as [?|(s0 & bp & ? & ? & ? & ?)]; [by left|].
      right. exists s0, bp. split_and!; [by right | done | done | done]. }
    destruct (Length s) as [bp|e] eqn:Hlen; [|left; congruence].
    destruct (Z.leb_spec bp (max_bp self)) as [Hle|Hgt]; [|by apply Hrest].
    destruct (Id s) as [j|e] eqn:Hid; [|left; congruence].
    destruct (bool_decide (j ∉ acc)); [|by apply Hrest].
    destruct (Hrest _ Hrun) as [Hin|?]; [|by right].
    apply elem_of_union in Hin as [?|Hj]; [by left|].
    apply elem_of_singleton in Hj as ->. right. exists s, bp.
    split_and!; [by left | done | done | done].
Qed.

Lemma ids_page_spec self term step start acc w :
  match ids_page self term step start acc w with
  | (w', Ok (acc', b)) =>
      same_services w w' ∧
      ∀ i, i ∈ acc' → i ∈ acc ∨ retained self w term step i
  | (_, Raise e) => is_Exception e = false
  end.
Proof.
  unfold ids_page. rewrite try_except_run, bind_run, Entrez_esearch_run.
  destruct (esearch w (db self) term start step) as [record|e] eqn:Hsearch.
  - rewrite bind_run, Entrez_esummary_run. cbn [world_with esummary].
    destruct (esummary w (db self) (String.concat "," (IdList record)))
      as [summaries|e] eqn:Hsum.
    + assert (Hacc : ∀ acc' r, add_summaries self summaries acc = (acc', r) →
                ∀ i, i ∈ acc' → i ∈ acc ∨ retained self w term step i).
      { intros acc' r Hadd i Hi.
        destruct (add_summaries_spec _ _ _ _ _ Hadd i Hi)
          as [?|(s & bp & ? & ? & ? & ?)]; [by left|].
        right. exists s, bp. split_and!; [|done..].
        by exists start, record, summaries. }
      destruct (add_summaries self summaries acc) as [acc' [[]|e]] eqn:Hadd.
      * rewrite ret_run. split; [done | by eapply Hacc].
      * rewrite except_Exception_run. destruct (is_Exception e) eqn:He.
        -- rewrite bind_run, print_run, ret_run. split; [done | by eapply Hacc].
        -- by rewrite He.
    + destruct (is_Exception e) eqn:He; [|done].
      rewrite bind_run, print_run, ret_run. split; [done | by left].
  - destruct (is_Exception e) eqn:He; [|done].
    rewrite bind_run, print_run, ret_run. split; [done | by left].
Qed.

Lemma retained_services self w w' term step i :
  same_services w w' → retained self w' term step i → retained self w term step i.
Proof.
  intros [Hs Hm] (s & bp & (start & record & summaries & H1 & H2 & H3) & H4).
  exists s, bp. split; [|done]. exists start, record, summaries.
  rewrite <- Hs, <- Hm. done.
Qed.

Lemma ids_loop_spec self term step starts acc w :
  match ids_loop self term step starts acc w with
  | (w', Ok ids) =>
      same_services w w' ∧
      ∀ i, i ∈ ids → i ∈ acc ∨ retained self w term step i
  | (_, Raise e) => is_Exception e = false
  end.
Proof.
  revert acc w. induction starts as [|start starts IH]; intros acc w.
  - cbn [ids_loop]. rewrite ret_run. split; [done | by left].
  - cbn [ids_loop]. rewrite bind_run.
    pose proof (ids_page_spec self term step start acc w) as Hpage.
    destruct (ids_page self term step start acc w) as [w1 [[acc1 b]|e]]; [|done].
    destruct Hpage as [Hsv Hacc]. cbn [fst snd]. destruct b.
    + pose proof (IH acc1 w1) as Hrest.
      destruct (ids_loop self term step starts acc1 w1) as [w2 [ids|e]]; [|done].
      destruct Hrest as [Hsv2 Hids].
      split; [by eapply same_services_trans|].
      intros i Hi. destruct (Hids i Hi) as [?|?]; [by apply Hacc|].
      right. by eapply retained_services.
    + rewrite ret_run. done.
Qed.

Lemma download_ids_run self term step w record total :
  esearch w (db self) term 0 0 = Ok record →
  Count record = Ok total →
  step ≠ 0 →
  match download_ids self term step w with
  | (_, Ok ids) => ∀ i, i ∈ ids → retained self w term step i
  | (_, Raise e) => is_Exception e = false
  end.
Proof.
  intros Hsearch Hcount Hstep. unfold download_ids.
  rewrite bind_run, Entrez_esearch_run, Hsearch, bind_run, lift_run, Hcount.
  rewrite bind_run, lift_run. unfold py_range.
  destruct (Z.eqb_spec step 0) as [|_]; [done|].
  match goal with |- context [ids_loop _ _ _ ?starts _ ?w1] =>
    pose proof (ids_loop_spec self term step starts ∅ w1) as Hloop;
    destruct (ids_loop self term step starts ∅ w1) as [w' [ids|e]]; [|done]
  end.
  destruct Hloop as [Hsv Hids].
  intros i Hi. destruct (Hids i Hi) as [Hempty|Hadm]; [by apply not_elem_of_empty in Hempty|].
  by eapply retained_services; [apply same_services_with|].
Qed.

(** C7. When the first search answers and [step] is not zero,
    [download_ids] returns a set, unless an exception that is no
    [Exception] (which line 87 does not catch) ends it. Each ID of the set
    was taken from a summary whose length is at most [max_bp]; so, the
    provider giving one length per ID, no summary of a returned ID is
    longer than [max_bp]. Listing the set gives no ID twice. *)
Theorem download_ids_filtered_unique self term step w record total :
  esearch w (db self) term 0 0 = Ok record →
  Count record = Ok total →
  step ≠ 0 →
  match download_ids self term step w with
  | (_, Ok ids) =>
      (∀ i, i ∈ ids → retained self w term step i) ∧
      (one_length_per_id self w term step →
       ∀ i s bp, i ∈ ids → summarised self w term step s →
                 Id s = Ok i → Length s = Ok bp → bp <= max_bp self) ∧
      NoDup (elements ids)
  | (_, Raise e) => is_Exception e = false
  end.
Proof.
  intros Hsearch Hcount Hstep.
  pose proof (download_ids_run self term step w record total Hsearch Hcount Hstep) as Hrun.
  destruct (download_ids self term step w) as [w' [ids|e]]; [|done].
  split_and!; [done | | apply NoDup_elements].
  intros Hone i s bp Hi Hs Hid Hlen.
  destruct (Hrun i Hi) as (s' & bp' & Hs' & Hid' & Hlen' & Hle).
  assert (Heq : Length s = Length s') by (apply Hone; [done | done | congruence]).
  congruence.
Qed.

(** *** [download_seq] *)

Section Fetching.
Variable SeqRecord : Type.
Variable SeqIO_records : string → string → res (list SeqRecord).
Variable encode : SeqRecord → res value.

Lemma Entrez_efetch_run seq_id rettype w :
  Entrez_efetch seq_id rettype w =
    (fetch_world w seq_id rettype, efetch w (fetches w) seq_id rettype).
Proof. reflexivity. Qed.

Lemma try_body_run self seq_id rettype w :
  (text <~ Entrez_efetch seq_id rettype ;;
   seqs <~ lift (parse_fetched SeqIO_records self rettype text) ;;
   ret (Returned seqs)) w =
    (fetch_world w seq_id rettype,
     rbind (fetched SeqIO_records self w (fetches w) seq_id rettype) (λ seqs, Ok (Returned seqs))).
Proof.
  rewrite bind_run, Entrez_efetch_run. unfold fetched.
  destruct (efetch w (fetches w) seq_id rettype) as [text|e]; [|done].
  rewrite bind_run, lift_run. cbn [rbind].
  by destruct (parse_fetched SeqIO_records self rettype text).
Qed.

Lemma attempts_success self seq_id rettype retries fuel attempt w seqs :
  attempt < retries →
  fetched SeqIO_records self w (fetches w) seq_id rettype = Ok seqs →
  attempts SeqIO_records self seq_id rettype retries (S fuel) attempt w =
    (fetch_world w seq_id rettype, Ok (Returned seqs)).
Proof.
  intros Hlt Hok. cbn [attempts].
  destruct (Z.ltb_spec attempt retries); [|lia].
  by rewrite try_except_run, try_body_run, Hok.
Qed.

Lemma attempts_done self seq_id rettype retries fuel attempt w :
  retries <= attempt →
  attempts SeqIO_records self seq_id rettype retries fuel attempt w = (w, Ok (Fell attempt)).
Proof.
  intros Hge. destruct fuel; [done|]. cbn [attempts].
  destruct (Z.ltb_spec attempt retries); [lia | done].
Qed.

(** The turns [download_seq] allows are enough: more fuel changes nothing. *)
Lemma attempts_fuel self seq_id rettype retries fuel :
  ∀ attempt w,
    (Z.to_nat (retries - attempt) ≤ fuel)%nat →
    attempts SeqIO_records self seq_id rettype retries fuel attempt w =
      attempts SeqIO_records self seq_id rettype retries
        (Z.to_nat (retries - attempt)) attempt w.
Proof.
  induction fuel as [|fuel IH]; intros attempt w Hle.
  - by replace (Z.to_nat (retries - attempt)) with 0%nat by lia.
  - destruct (Z.ltb_spec attempt retries) as [Hlt|Hge].
    + replace (Z.to_nat (retries - attempt))
        with (S (Z.to_nat (retries - (attempt + 1)))) by lia.
      cbn [attempts]. destruct (Z.ltb_spec attempt retries); [|lia].
      rewrite !try_except_run, try_body_run.
      destruct (fetched SeqIO_records self w (fetches w) seq_id rettype) as [seqs|e];
        [done|].
      cbn [rbind]. destruct e; try done.
      rewrite !bind_run, logging_warning_run, !bind_run, print_run, !bind_run,
        time_sleep_run.
      apply IH. lia.
    + rewrite !attempts_done by done. done.
Qed.

Lemma retried_0 w seq_id rettype retries attempt :
  retried w seq_id rettype retries attempt 0 = w.
Proof.
  unfold retried. cbn [retry_events]. rewrite Nat.add_0_r, app_nil_r. by destruct w.
Qed.

Lemma attempts_retry self seq_id rettype retries k :
  ∀ fuel attempt w,
    (∀ j, (j < k)%nat →
       fetched SeqIO_records self w (fetches w + j) seq_id rettype = Raise IncompleteRead) →
    attempt + Z.of_nat k <= retries →
    attempts SeqIO_records self seq_id rettype retries (k + fuel) attempt w =
      attempts SeqIO_records self seq_id rettype retries fuel (attempt + Z.of_nat k)
        (retried w seq_id rettype retries attempt k).
Proof.
  induction k as [|k IH]; intros fuel attempt w Hfail Hle.
  - rewrite retried_0. cbn [Nat.add]. f_equal. lia.
  - cbn [Nat.add attempts].
    destruct (Z.ltb_spec attempt retries); [|lia].
    rewrite try_except_run, try_body_run.
    pose proof (Hfail 0%nat ltac:(lia)) as H0. rewrite Nat.add_0_r in H0.
    rewrite H0. cbn [rbind].
    rewrite bind_run, logging_warning_run, bind_run, print_run, bind_run, time_sleep_run.
    rewrite IH.
    + f_equal; [lia|]. unfold retried, world_with, fetch_world.
      cbn [esearch esummary efetch fetches trace retry_events].
      f_equal; [lia|]. by rewrite <- !app_assoc.
    + intros j Hj. cbn [world_with fetch_world fetches].
      specialize (Hfail (S j) ltac:(lia)).
      by replace (fetches w + S j)%nat with (S (fetches w) + j)%nat in Hfail by lia.
    + lia.
Qed.

Lemma download_seq_success self seq_id rettype retries w k seqs :
  Z.of_nat k < retries →
  (∀ j, (j < k)%nat →
     fetched SeqIO_records self w (fetches w + j) seq_id rettype = Raise IncompleteRead) →
  fetched SeqIO_records self w (fetches w + k) seq_id rettype = Ok seqs →
  download_seq SeqIO_records self seq_id rettype retries w =
    (fetch_world (retried w seq_id rettype retries 0 k) seq_id rettype, Ok (Some seqs)).
Proof.
  intros Hk Hfail Hok. unfold download_seq. rewrite bind_run.
  replace (Z.to_nat retries) with (k + S (Z.to_nat retries - S k))%nat by lia.
  rewrite attempts_retry by (done || lia).
  by rewrite (attempts_success _ _ _ _ _ _ _ seqs) by (done || lia).
Qed.

Lemma download_seq_exhausted self seq_id rettype retries w :
  0 <= retries →
  (∀ j, (j < Z.to_nat retries)%nat →
     fetched SeqIO_records self w (fetches w + j) seq_id rettype = Raise IncompleteRead) →
  download_seq SeqIO_records self seq_id rettype retries w =
    (world_with (retried w seq_id rettype retries 0 (Z.to_nat retries))
       [EvError (MsgFailed seq_id retries); EvPrint (MsgFailed seq_id retries)],
     Ok None).
Proof.
  intros Hpos Hfail. unfold download_seq. rewrite bind_run.
  replace (Z.to_nat retries) with (Z.to_nat retries + 0)%nat at 1 by lia.
  rewrite attempts_retry by (done || lia).
  rewrite attempts_done by lia.
  replace (0 + Z.of_nat (Z.to_nat retries)) with retries by lia.
  rewrite Z.eqb_refl.
  rewrite bind_run, bind_run, logging_failure_run, print_run, ret_run.
  f_equal. unfold world_with. cbn [esearch esummary efetch fetches trace].
  by rewrite <- app_assoc.
Qed.

(** C3. With the three attempts [download] asks for: after fewer than
    three fetches in a row that end in [IncompleteRead], a fetch that
    succeeds has its sequences returned, and between two fetches there
    are the warning and a sleep of 2 seconds; after three such failures
    [None] is the result and the failure is logged. *)
Theorem retry_on_incomplete_read self seq_id rettype w :
  (∀ k seqs,
     (k < 3)%nat →
     (∀ j, (j < k)%nat →
        fetched SeqIO_records self w (fetches w + j) seq_id rettype = Raise IncompleteRead) →
     fetched SeqIO_records self w (fetches w + k) seq_id rettype = Ok seqs →
     snd (download_seq SeqIO_records self seq_id rettype 3 w) = Ok (Some seqs) ∧
     trace (fst (download_seq SeqIO_records self seq_id rettype 3 w)) =
       trace w ++ retry_events seq_id rettype 3 0 k ++ [EvEfetch seq_id rettype])
  ∧ ((∀ j, (j < 3)%nat →
        fetched SeqIO_records self w (fetches w + j) seq_id rettype = Raise IncompleteRead) →
     snd (download_seq SeqIO_records self seq_id rettype 3 w) = Ok None ∧
     trace (fst (download_seq SeqIO_records self seq_id rettype 3 w)) =
       trace w ++ retry_events seq_id rettype 3 0 3
       ++ [EvError (MsgFailed seq_id 3); EvPrint (MsgFailed seq_id 3)]).
Proof.
  split.
  - intros k seqs Hk Hfail Hok.
    rewrite (download_seq_success _ _ _ 3 _ k seqs) by (done || lia).
    cbn [fst snd fetch_world retried trace].
    split; [done | by rewrite <- app_assoc].
  - intros Hfail. rewrite download_seq_exhausted by (done || lia).
    change (Z.to_nat 3) with 3%nat.
    cbn [fst snd world_with retried trace].
    split; [done | by rewrite <- app_assoc].
Qed.

(** *** [download] *)

(** C2, where the code departs from it: a batch for which [download_seq]
    has no result ends the download with a [TypeError]; the batches after
    it are not fetched. *)
Theorem failed_batch_aborts self seq_id rest payload w w' :
  download_seq SeqIO_records self seq_id (rettype self) 3 w = (w', Ok None) →
  batches_loop SeqIO_records encode self (seq_id :: rest) payload w = (w', Raise TypeError).
Proof.
  intros Hnone. cbn [batches_loop]. by rewrite bind_run, Hnone.
Qed.

End Fetching.

Lemma download_ids_filtered_unique_witness :
  let w := database (λ _, Ok one_fasta) in
  let term := "Alytes muletensis[Organism]" in
  ∃ w' ids,
    download_ids fasta_reader term 1 w = (w', Ok ids) ∧
    (∀ i, i ∈ ids → retained fasta_reader w term 1 i) ∧
    (one_length_per_id fasta_reader w term 1 →
     ∀ i s bp, i ∈ ids → summarised fasta_reader w term 1 s →
               Id s = Ok i → Length s = Ok bp → bp <= max_bp fasta_reader) ∧
    NoDup (elements ids).
Proof.
  intros w term.
  pose proof (download_ids_filtered_unique fasta_reader term 1 w
                {| Count := Ok 3; IdList := ["AY166955"] |} 3
                eq_refl eq_refl ltac:(lia)) as Hids.
  destruct (download_ids fasta_reader term 1 w) as [w' [ids|e]] eqn:Hrun.
  - exists w', ids. split; [reflexivity | exact Hids].
  - vm_compute in Hrun. discriminate Hrun.
Defined.

Lemma retry_on_incomplete_read_witness :
  (snd (download_seq no_records fasta_reader ["AY166955"] "fasta" 3
          (database (incomplete_once one_fasta)))
   = Ok (Some [Fasta (">AY166955" +:+ nl +:+ "ACGT")])
   ∧ trace (fst (download_seq no_records fasta_reader ["AY166955"] "fasta" 3
                   (database (incomplete_once one_fasta))))
     = [EvEfetch ["AY166955"] "fasta";
        EvWarning (MsgRetrying IncompleteRead 1 3);
        EvPrint (MsgRetrying IncompleteRead 1 3);
        EvSleep 2;
        EvEfetch ["AY166955"] "fasta"])
  ∧ (snd (download_seq no_records fasta_reader ["AY166955"] "fasta" 3
            (database (λ _, Raise IncompleteRead)))
     = Ok None
     ∧ trace (fst (download_seq no_records fasta_reader ["AY166955"] "fasta" 3
                     (database (λ _, Raise IncompleteRead))))
       = retry_events ["AY166955"] "fasta" 3 0 3
         ++ [EvError (MsgFailed ["AY166955"] 3); EvPrint (MsgFailed ["AY166955"] 3)]).
Proof.
  split.
  - apply (proj1 (retry_on_incomplete_read unit no_records fasta_reader ["AY166955"]
                    "fasta" (database (incomplete_once one_fasta)))
             1%nat [Fasta (">AY166955" +:+ nl +:+ "ACGT")]).
    + lia.
    + intros j Hj. destruct j; [reflexivity | lia].
    + reflexivity.
  - apply (proj2 (retry_on_incomplete_read unit no_records fasta_reader ["AY166955"]
                    "fasta" (database (λ _, Raise IncompleteRead)))).
    intros j Hj. reflexivity.
Defined.

Lemma failed_batch_aborts_witness :
  let w := database (λ _, Raise ConnectionError) in
  batches_loop no_records no_encoding fasta_reader [["KJ858801"]; ["AY166955"]] [] w
  = (world_with (fetch_world w ["KJ858801"] "fasta")
       [EvError (MsgError ConnectionError); EvPrint (MsgError ConnectionError)],
     Raise TypeError).
Proof.
  intros w.
  apply (failed_batch_aborts unit no_records no_encoding fasta_reader ["KJ858801"]
           [["AY166955"]] [] w).
  reflexivity.
Defined.

(** The whole download at that input, in whatever order the set of the
    two IDs is listed: the first batch fails, the [TypeError] ends the run
    and the second batch is never fetched. *)
Lemma download_aborts_on_failed_batch listing :
  lists_the_set listing →
  let r := download no_records no_encoding listing fasta_reader
             "Alytes muletensis[Organism]" (database (λ _, Raise ConnectionError)) in
  snd r = Raise TypeError ∧ fetches (fst r) = 1%nat.
Proof.
  intros Hlist. unfold download. rewrite bind_run.
  destruct (download_ids fasta_reader "Alytes muletensis[Organism]" (step fasta_reader)
              (database (λ _, Raise ConnectionError))) as [w' [ids|e]] eqn:Hids;
    [|vm_compute in Hids; discriminate Hids].
  assert (Hfetch : efetch w' = (λ _ _ _, Raise ConnectionError) ∧ fetches w' = 0%nat).
  { vm_compute in Hids. by injection Hids as <- _. }
  assert (Hlen : length (listing ids) = 2%nat).
  { rewrite (Hlist ids). vm_compute in Hids. by injection Hids as _ <-. }
  destruct Hfetch as [Hfetch Hcount].
  destruct (listing ids) as [|a [|b [|c l]]]; try discriminate Hlen.
  change (split_to_batches [a; b] (step fasta_reader)) with [[a]; [b]].
  cbn [batches_loop]. rewrite bind_run.
  unfold download_seq. rewrite bind_run.
  change (Z.to_nat 3) with 3%nat. cbn [attempts Z.ltb Z.compare].
  rewrite try_except_run, try_body_run. unfold fetched. rewrite Hfetch.
  cbn [rbind is_Exception].
  rewrite bind_run, logging_failure_run, bind_run, print_run, ret_run.
  cbn [Z.eqb]. rewrite bind_run, ret_run, ret_run.
  unfold raise. cbn [fst snd world_with fetch_world fetches]. by rewrite Hcount.
Qed.

End NCBIFacts.

(* ===================================================================== *)
(** ** [COL._download]: one candidate, no candidate, errors *)
(* ===================================================================== *)

Module COLEdges.
Import Py IO IOFacts COL COLData COLFacts.

Lemma download_run self query w code body :
  http w (url query) = Ok {| status_code := code; json := body |} →
  _download self query w =
    parse self query {| status_code := code; json := body |}
      (world_with w (requested query code)).
Proof.
  intros Hget. rewrite (download_parse _ _ _ _ Hget). reflexivity.
Qed.

(** X1. One candidate: the operator is not asked. The run ends with the
    record of the candidate, standard input untouched and no prompt among
    the events. *)
Theorem single_candidate_no_prompt self query w code payload empty c :
  http w (url query) = Ok {| status_code := code; json := Ok payload |} →
  getitem payload "empty" = Ok empty → truthy empty = false →
  getitem payload "result" = Ok (VList [c]) →
  wf_candidate c = true →
  _download self query w =
    (world_with w (requested query code), Ok (VList [record_of self query c])).
Proof.
  intros Hget He Ht Hr Hwf. rewrite (download_run _ _ _ _ _ Hget).
  rewrite (parse_result _ _ _ payload empty (VList [c])) by done.
  rewrite (disambiguate_single _ _ 1) by done.
  by rewrite shape_wf.
Qed.

Lemma single_candidate_no_prompt_witness :
  let c := candidate "4LQWC" "accepted" "4LQWC" ["N"; "4LQWC"] in
  let w := provider 200 (found [c]) ["typed ahead"] in
  _download {| check_syn := false |} "Bufotes viridis" w =
    (world_with w (requested "Bufotes viridis" 200),
     Ok (VList [record_of {| check_syn := false |} "Bufotes viridis" c])).
Proof.
  intros c w.
  apply (single_candidate_no_prompt _ "Bufotes viridis" w 200 (found [c]) (VBool false) c);
    reflexivity.
Defined.

Lemma shape_readable self query c :
  usage_readable c = true → check_syn self = false →
  shape self query (VList [c]) =
    Ok (VList [record query (field "id" c) (field "status" (field "usage" c))
                 (field "usage" c) (field "classification" c)]).
Proof.
  unfold usage_readable. intros [Hobj Hu]%andb_true_iff Hsyn.
  destruct c as [| | | |l|kv]; try done.
  unfold shape. rewrite getitem_int_head. cbn [rbind dict_get].
  change (default VNone (dict_lookup "usage" kv)) with (field "usage" (VDict kv)).
  assert (Hst : (if truthy (field "usage" (VDict kv))
                 then dict_get (field "usage" (VDict kv)) "status"
                 else Ok VNone) = Ok (field "status" (field "usage" (VDict kv)))).
  { destruct (field "usage" (VDict kv)) as [| | | |l|[|p ukv]]; try done. }
  rewrite Hst. cbn [rbind]. unfold strip_synonym. rewrite Hsyn. reflexivity.
Qed.

(** X2. Without [check_syn] the classification of the resolved candidate is
    returned as the provider sent it, whatever the status and whatever the
    classification is. *)
Theorem no_check_syn_classification_untouched self query w code payload empty
    result c rest :
  http w (url query) = Ok {| status_code := code; json := Ok payload |} →
  getitem payload "empty" = Ok empty → truthy empty = false →
  getitem payload "result" = Ok result →
  snd (disambiguate query result w) = Ok (VList (c :: rest)) →
  usage_readable c = true →
  check_syn self = false →
  returned "classification" (snd (_download self query w)) =
    Some (field "classification" c).
Proof.
  intros Hget He Ht Hr Hres Hc Hsyn.
  rewrite (download_result _ _ _ _ _ _ _ Hget He Ht Hr), Hres. cbn [rbind].
  by rewrite shape_head, shape_readable.
Qed.

Lemma no_check_syn_classification_untouched_witness :
  let c := candidate "NPDX" "synonym" "NPDX" ["N"; "4LQWC"; "NPDX"] in
  returned "classification"
    (snd (_download {| check_syn := false |} "Bufo roseus" (provider 200 (found [c]) []))) =
    Some (VList [VDict [("id", VStr "N")]; VDict [("id", VStr "4LQWC")];
                 VDict [("id", VStr "NPDX")]]).
Proof.
  intros c.
  apply (no_check_syn_classification_untouched {| check_syn := false |} "Bufo roseus"
           (provider 200 (found [c]) []) 200 (found [c]) (VBool false) (VList [c]) c []);
    reflexivity.
Defined.

(** X3. A response that is not marked empty and yet lists no candidate
    raises [IndexError], without a prompt. *)
Theorem no_candidate_raises self query w code payload empty :
  http w (url query) = Ok {| status_code := code; json := Ok payload |} →
  getitem payload "empty" = Ok empty → truthy empty = false →
  getitem payload "result" = Ok (VList []) →
  _download self query w = (world_with w (requested query code), Raise IndexError).
Proof.
  intros Hget He Ht Hr. rewrite (download_run _ _ _ _ _ Hget).
  rewrite (parse_result _ _ _ payload empty (VList [])) by done.
  by rewrite (disambiguate_single _ _ 0) by (done || lia).
Qed.

Lemma no_candidate_raises_witness :
  let w := provider 200 (found []) [] in
  _download {| check_syn := true |} "Bufo roseus" w =
    (world_with w (requested "Bufo roseus" 200), Raise IndexError).
Proof.
  intros w.
  apply (no_candidate_raises _ "Bufo roseus" w 200 (found []) (VBool false)); reflexivity.
Defined.

Lemma shape_form self query result out :
  shape self query result = Ok out →
  ∃ id status usage classification,
    out = VList [record query id status usage classification].
Proof.
  unfold shape.
  destruct (getitem_int result 0) as [r0|e]; [|done]. cbn [rbind].
  destruct (dict_get r0 "id") as [id|e]; [|done]. cbn [rbind].
  destruct (dict_get r0 "usage") as [usage|e]; [|done]. cbn [rbind].
  destruct (if truthy usage then dict_get usage "status" else Ok VNone) as [status|e];
    [|done]. cbn [rbind].
  destruct (dict_get r0 "classification") as [cl|e]; [|done]. cbn [rbind].
  destruct (strip_synonym self status usage cl) as [cl'|e]; [|done]. cbn [rbind].
  intros [= <-]. eauto.
Qed.

(** X4. Whatever the provider answers and the operator types, a payload
    that [_download] returns is a list of exactly one record, with the five
    keys of the record and [origin_taxon] equal to the query. *)
Theorem returns_one_record self query w out :
  snd (_download self query w) = Ok out →
  ∃ id status usage classification,
    out = VList [VDict [("origin_taxon", VStr query); ("taxon_id", id);
                        ("status", status); ("usage", usage);
                        ("classification", classification)]].
Proof.
  unfold _download. rewrite bind_run, requests_get_run.
  destruct (http w (url query)) as [resp|e]; [|done].
  rewrite bind_run.
  assert (Hparse : ∀ w1, snd (parse self query resp w1) = Ok out →
            ∃ id status usage classification,
              out = VList [record query id status usage classification]).
  { intros w1. unfold parse. rewrite bind_run, lift_run.
    destruct (json resp) as [payload|e]; [|done].
    rewrite bind_run, lift_run.
    destruct (getitem payload "empty") as [empty|e]; [|done].
    destruct (truthy empty).
    - rewrite ret_run. intros [= <-]. eauto.
    - rewrite bind_run, lift_run, bind_run, lift_run.
      destruct (getitem payload "result") as [result|e]; [|done].
      rewrite bind_run.
      destruct (disambiguate query result w1) as [w2 [x|e]]; [|done].
      rewrite lift_run. apply shape_form. }
  destruct (negb (status_code resp =? 200)).
  - rewrite logging_error_run. apply Hparse.
  - rewrite ret_run. apply Hparse.
Qed.

Lemma returns_one_record_witness :
  ∃ id status usage classification,
    VList [record_of {| check_syn := true |} "Bufo roseus"
             (candidate "NPDX" "synonym" "NPDX" ["N"; "NPDX"])] =
    VList [VDict [("origin_taxon", VStr "Bufo roseus"); ("taxon_id", id);
                  ("status", status); ("usage", usage);
                  ("classification", classification)]].
Proof.
  apply (returns_one_record {| check_syn := true |} "Bufo roseus"
           (provider 200 (found [candidate "NPDX" "synonym" "NPDX" ["N"; "NPDX"]]) [])).
  reflexivity.
Defined.

(** X5. A body that is not JSON raises the error of [response.json()]: after
    the logged error when the status is not 200, and without a record. *)
Theorem undecodable_body_raises self query w code e :
  http w (url query) = Ok {| status_code := code; json := Raise e |} →
  _download self query w = (world_with w (requested query code), Raise e).
Proof.
  intros Hget. rewrite (download_run _ _ _ _ _ Hget).
  unfold parse. by rewrite bind_run, lift_run.
Qed.

Lemma undecodable_body_raises_witness :
  let w := {| http := λ _, Ok {| status_code := 503; json := Raise JSONDecodeError |};
              stdin := []; trace := [] |} in
  _download {| check_syn := false |} "Bufo roseus" w =
    (world_with w [EvGet (url "Bufo roseus"); EvLogError "COL response code: %s" 503],
     Raise JSONDecodeError).
Proof.
  intros w.
  apply (undecodable_body_raises _ "Bufo roseus" w 503 JSONDecodeError). reflexivity.
Defined.

Lemma ids_of_partial cands :
  forallb id_absent_or_str cands = true → ids_of cands = Ok (map VStr (ids cands)).
Proof.
  unfold ids_of. induction cands as [|c cands IH]; [done|].
  cbn [forallb]. intros [Hc Hall]%andb_true_iff.
  destruct c as [| | | |l|kv]; try done. cbn [id_absent_or_str] in Hc.
  cbn [comprehension contains dict_get rbind ids item_id].
  destruct (dict_lookup "id" kv) as [[| | |s| |]|]; try done.
  - cbn [rbind default]. by rewrite IH.
  - by apply IH.
Qed.

Lemma with_id_missing answer cands :
  forallb id_absent_or_str cands = true →
  existsb (λ c, negb (has_field "id" c)) cands = true →
  with_id answer cands = Raise KeyError.
Proof.
  unfold with_id. induction cands as [|c cands IH]; [done|].
  cbn [forallb existsb]. intros [Hc Hall]%andb_true_iff Hex.
  destruct c as [| | | |l|kv]; try done. cbn [id_absent_or_str has_field] in *.
  cbn [filter_r getitem].
  destruct (dict_lookup "id" kv) as [i|]; [|done].
  cbn [negb orb rbind] in *. by rewrite IH.
Qed.

(** X6. Line 75 lists only the candidates that have an [id], line 82 reads
    the [id] of every candidate: with more than one candidate, one of them
    without an [id], any answer other than "Skip" raises [KeyError]. *)
Theorem candidate_without_id_raises self query w code payload empty cands answer rest :
  http w (url query) = Ok {| status_code := code; json := Ok payload |} →
  getitem payload "empty" = Ok empty → truthy empty = false →
  getitem payload "result" = Ok (VList cands) →
  (1 < length cands)%nat →
  forallb id_absent_or_str cands = true →
  existsb (λ c, negb (has_field "id" c)) cands = true →
  stdin w = answer :: rest →
  answer ≠ "Skip" →
  snd (_download self query w) = Raise KeyError.
Proof.
  intros Hget He Ht Hr Hlen Hids Hmiss Hin Hne.
  rewrite (download_result _ _ _ _ _ _ _ Hget He Ht Hr).
  unfold disambiguate. rewrite bind_run, lift_run. cbn [py_len].
  destruct (Nat.ltb_spec 1 (length cands)); [|lia].
  rewrite bind_run, lift_run. cbn [py_iter].
  rewrite bind_run, lift_run, ids_of_partial by done.
  rewrite bind_run, lift_run. unfold str_join. rewrite strings_of_map. cbn [rbind].
  rewrite bind_run, input_run, Hin.
  apply String.eqb_neq in Hne. rewrite Hne.
  by rewrite bind_run, lift_run, bind_run, lift_run, with_id_missing.
Qed.

Lemma candidate_without_id_raises_witness :
  let cands := [candidate "4LQWC" "accepted" "4LQWC" ["N"; "4LQWC"];
                VDict [("usage", VNone)]] in
  snd (_download {| check_syn := false |} "Bufo roseus"
         (provider 200 (found cands) ["4LQWC"])) = Raise KeyError.
Proof.
  intros cands.
  apply (candidate_without_id_raises _ "Bufo roseus" (provider 200 (found cands) ["4LQWC"])
           200 (found cands) (VBool false) cands "4LQWC" []); try reflexivity.
  - cbn [length cands]. lia.
  - discriminate.
Defined.

End COLEdges.

(* ===================================================================== *)
(** ** [INaturalist._download]: errors, the choice of the photo *)
(* ===================================================================== *)

Module INaturalistEdges.
Import Py IO IOFacts StringFacts INaturalist INaturalistData INaturalistFacts.

(** X7. A search that answers with a status other than 200 raises
    [BiodumpyException] with that status; the detail endpoint is not asked. *)
Theorem search_error_is_fatal query w resp :
  search w (url query) = Ok resp →
  status_code resp ≠ 200 →
  _download query w =
    (world_with w [EvSearch (url query)],
     Raise (BiodumpyException "[iNaturalist] - Response code: " (status_code resp))).
Proof.
  intros Hs Hcode. unfold _download. rewrite bind_run, get_search_run, Hs.
  by destruct (Z.eqb_spec (status_code resp) 200).
Qed.

Lemma search_error_is_fatal_witness :
  let w := {| search := λ _, Ok {| status_code := 429; json := Raise JSONDecodeError |};
              taxon := λ _, Raise ConnectionError; trace := [] |} in
  _download "Bufo roseus" w =
    (world_with w [EvSearch (url "Bufo roseus")],
     Raise (BiodumpyException "[iNaturalist] - Response code: " 429)).
Proof.
  intros w.
  apply (search_error_is_fatal "Bufo roseus" w
           {| status_code := 429; json := Raise JSONDecodeError |});
    [reflexivity | cbn [status_code]; lia].
Defined.

Lemma first_r_none {A} (c : A → res bool) (l : list A) :
  forallb (λ x, match c x with Ok false => true | _ => false end) l = true →
  first_r c l = Ok None.
Proof.
  induction l as [|x l IH]; [done|]. cbn [forallb first_r].
  intros [Hx Hl]%andb_true_iff. destruct (c x) as [[]|e]; try done.
  cbn [rbind]. by apply IH.
Qed.

Lemma first_r_skip {A} (c : A → res bool) (pre : list A) (x : A) (post : list A) :
  forallb (λ x, match c x with Ok false => true | _ => false end) pre = true →
  c x = Ok true →
  first_r c (pre ++ x :: post) = Ok (Some x).
Proof.
  intros Hpre Hx. induction pre as [|y pre IH].
  - cbn [app first_r]. by rewrite Hx.
  - cbn [forallb] in Hpre. apply andb_true_iff in Hpre as [Hy Hpre].
    cbn [app first_r]. destruct (c y) as [[]|e]; try done. cbn [rbind]. by apply IH.
Qed.

(** X8. When no result of the search has exactly the query as its name, the
    record with null [image_id], [license_code] and [attribution] is
    returned, and the detail endpoint is not asked. *)
Theorem no_exact_name_null_record query w body results :
  search w (url query) = Ok {| status_code := 200; json := Ok body |} →
  getitem body "results" = Ok (VList results) →
  forallb (not_named query) results = true →
  _download query w =
    (world_with w [EvSearch (url query)], Ok (VList [photo_details_empty query])).
Proof.
  intros Hs Hres Hnone. unfold _download. rewrite bind_run, get_search_run, Hs.
  cbn [status_code negb Z.eqb Pos.eqb].
  rewrite bind_run, lift_run. cbn [json rbind]. rewrite Hres.
  rewrite bind_run, lift_run. cbn [py_iter].
  by rewrite bind_run, lift_run, first_r_none.
Qed.

Lemma no_exact_name_null_record_witness :
  let results := [VDict [("name", VStr "Bufo"); ("id", VInt 1)];
                  VDict [("name", VStr "Bufo bufo"); ("id", VInt 2)]] in
  _download "Bufo roseus" (provider results []) =
    (world_with (provider results []) [EvSearch (url "Bufo roseus")],
     Ok (VList [photo_details_empty "Bufo roseus"])).
Proof.
  intros results.
  apply (no_exact_name_null_record "Bufo roseus" (provider results [])
           (VDict [("results", VList results)]) results); reflexivity.
Defined.

(** The run up to the choice between the default photo and the occurrences. *)
Lemma download_selected query w body results rf taxon_id :
  search w (url query) = Ok {| status_code := 200; json := Ok body |} →
  getitem body "results" = Ok (VList results) →
  first_r (named query) results = Ok (Some rf) →
  getitem rf "id" = Ok taxon_id →
  _download query w =
    match default_photo_info rf with
    | Ok photo_info =>
        match (if is_none photo_info then occurrence_photo query taxon_id
               else lift (chosen query (Ok photo_info)))
                (world_with w [EvSearch (url query)]) with
        | (w', Ok details) => (w', Ok (VList [details]))
        | (w', Raise e) => (w', Raise e)
        end
    | Raise e => (world_with w [EvSearch (url query)], Raise e)
    end.
Proof.
  intros Hs Hres Hfirst Hid.
  unfold _download. rewrite bind_run, get_search_run, Hs.
  cbn [status_code negb Z.eqb Pos.eqb].
  rewrite bind_run, lift_run. cbn [json rbind]. rewrite Hres.
  rewrite bind_run, lift_run. cbn [py_iter].
  rewrite bind_run, lift_run, Hfirst.
  assert (Hrf : truthy rf = true).
  { apply first_r_found in Hfirst. unfold named in Hfirst.
    destruct rf as [| | | |l|[|p kv]]; done. }
  rewrite Hrf, bind_run, lift_run, Hid, bind_run, lift_run.
  destruct (default_photo_info rf) as [photo_info|e]; [|done].
  rewrite bind_run.
  by destruct ((if is_none photo_info then occurrence_photo query taxon_id
                else lift (chosen query (Ok photo_info))) _) as [w' [d|e]].
Qed.

Lemma no_licensed_default_info rf :
  no_licensed_default rf = true → default_photo_info rf = Ok VNone.
Proof.
  unfold no_licensed_default, default_photo_info.
  destruct (getitem rf "default_photo") as [dp|e]; [|done]. cbn [rbind].
  destruct dp; try done; cbn [is_none negb];
    (destruct (getitem _ "license_code") as [lc|e]; [|done]);
    cbn [rbind]; by intros ->%negb_true_iff.
Qed.

(** X9. When the selected taxon has no default photo with a license code,
    a license code that [_download] returns is null or one of
    [photo_license]. *)
Theorem occurrence_license_allowed query w body results rf taxon_id out :
  search w (url query) = Ok {| status_code := 200; json := Ok body |} →
  getitem body "results" = Ok (VList results) →
  first_r (named query) results = Ok (Some rf) →
  getitem rf "id" = Ok taxon_id →
  no_licensed_default rf = true →
  snd (_download query w) = Ok out →
  ∃ image license attribution,
    out = VList [photo_details query image license attribution] ∧
    (license = VNone ∨ in_strings license photo_license = true).
Proof.
  intros Hs Hres Hfirst Hid Hno.
  rewrite (download_selected _ _ _ _ _ _ Hs Hres Hfirst Hid).
  rewrite (no_licensed_default_info _ Hno). cbn [is_none].
  destruct (occurrence_photo query taxon_id _) as [w' [d|e]] eqn:Hocc; [|done].
  cbn [snd]. intros [= <-].
  destruct (occurrence_photo_license query taxon_id _ d ltac:(by rewrite Hocc))
    as (image & license & attribution & -> & Hl).
  by exists image, license, attribution.
Qed.

Lemma occurrence_license_allowed_witness :
  let rf := VDict [("name", VStr "Bufo roseus"); ("id", VInt 5);
                   ("default_photo", VNone)] in
  let photos := [photo (VStr "https://x.org/photos/1/square.jpg") (VStr "pd");
                 photo (VStr "https://x.org/photos/2/square.jpg") (VStr "cc-by-nc")] in
  ∃ image license attribution,
    VList [photo_details "Bufo roseus" (VStr "2/medium.jpg") (VStr "cc-by-nc")
             (VStr "(c) observer")] =
      VList [photo_details "Bufo roseus" image license attribution] ∧
    (license = VNone ∨ in_strings license photo_license = true).
Proof.
  intros rf photos.
  apply (occurrence_license_allowed "Bufo roseus" (provider [rf] photos)
           (VDict [("results", VList [rf])]) [rf] rf (VInt 5)); reflexivity.
Defined.

Lemma download_occurrences query w body results rf taxon_id :
  search w (url query) = Ok {| status_code := 200; json := Ok body |} →
  getitem body "results" = Ok (VList results) →
  first_r (named query) results = Ok (Some rf) →
  getitem rf "id" = Ok taxon_id →
  no_licensed_default rf = true →
  _download query w =
    match occurrence_photo query taxon_id (world_with w [EvSearch (url query)]) with
    | (w', Ok details) => (w', Ok (VList [details]))
    | (w', Raise e) => (w', Raise e)
    end.
Proof.
  intros Hs Hres Hfirst Hid Hno.
  rewrite (download_selected _ _ _ _ _ _ Hs Hres Hfirst Hid).
  by rewrite (no_licensed_default_info _ Hno).
Qed.

Lemma inat_world_with_app w e1 e2 :
  world_with (world_with w e1) e2 = world_with w (e1 ++ e2).
Proof. unfold world_with. cbn [search taxon trace]. by rewrite <- List.app_assoc. Qed.

(** X10. A detail endpoint that answers with a status other than 200 is
    not an error: the record with null fields is returned. *)
Theorem detail_error_null_record query w body results rf taxon_id resp :
  search w (url query) = Ok {| status_code := 200; json := Ok body |} →
  getitem body "results" = Ok (VList results) →
  first_r (named query) results = Ok (Some rf) →
  getitem rf "id" = Ok taxon_id →
  no_licensed_default rf = true →
  taxon w taxon_id = Ok resp →
  status_code resp ≠ 200 →
  _download query w =
    (world_with w [EvSearch (url query); EvTaxon taxon_id],
     Ok (VList [photo_details_empty query])).
Proof.
  intros Hs Hres Hfirst Hid Hno Htaxon Hcode.
  rewrite (download_occurrences _ _ _ _ _ _ Hs Hres Hfirst Hid Hno).
  unfold occurrence_photo. rewrite bind_run, get_taxon_run. cbn [world_with taxon].
  rewrite Htaxon. destruct (Z.eqb_spec (status_code resp) 200); [done|].
  by rewrite ret_run, inat_world_with_app.
Qed.

Lemma detail_error_null_record_witness :
  let rf := VDict [("name", VStr "Bufo roseus"); ("id", VInt 5);
                   ("default_photo", VNone)] in
  let w := {| search := λ _, taxa [rf];
              taxon := λ _, Ok {| status_code := 500; json := Raise JSONDecodeError |};
              trace := [] |} in
  _download "Bufo roseus" w =
    (world_with w [EvSearch (url "Bufo roseus"); EvTaxon (VInt 5)],
     Ok (VList [photo_details_empty "Bufo roseus"])).
Proof.
  intros rf w.
  apply (detail_error_null_record "Bufo roseus" w (VDict [("results", VList [rf])])
           [rf] rf (VInt 5) {| status_code := 500; json := Raise JSONDecodeError |});
    try reflexivity.
  cbn [status_code]. lia.
Defined.

(** The record of the first licensed photo of the occurrences. *)
Lemma licensed_occurrence_record query w body results rf taxon_id pre x post p
    license url_photo image attribution :
  search w (url query) = Ok {| status_code := 200; json := Ok body |} →
  getitem body "results" = Ok (VList results) →
  first_r (named query) results = Ok (Some rf) →
  getitem rf "id" = Ok taxon_id →
  no_licensed_default rf = true →
  taxon w taxon_id = Ok {| status_code := 200; json := Ok (detail (pre ++ x :: post)) |} →
  forallb unlicensed pre = true →
  getitem x "photo" = Ok p →
  getitem p "license_code" = Ok license →
  in_strings license photo_license = true →
  getitem p "url" = Ok url_photo →
  image_id url_photo = Ok image →
  getitem p "attribution" = Ok attribution →
  snd (_download query w) = Ok (VList [photo_details query image license attribution]).
Proof.
  intros Hs Hres Hfirst Hid Hno Htaxon Hpre Hp Hlc Hin Hurl Himg Hatt.
  rewrite (download_occurrences _ _ _ _ _ _ Hs Hres Hfirst Hid Hno).
  unfold occurrence_photo. rewrite bind_run, get_taxon_run. cbn [world_with taxon].
  rewrite Htaxon. cbn [status_code Z.eqb Pos.eqb json].
  rewrite bind_run, lift_run. cbn [rbind detail getitem dict_lookup String.eqb
    Ascii.eqb Bool.eqb].
  rewrite bind_run, lift_run.
  assert (H0 : getitem_int (VList [VDict [("taxon_photos", VList (pre ++ x :: post))]]) 0
               = Ok (VDict [("taxon_photos", VList (pre ++ x :: post))])) by done.
  rewrite H0. cbn [rbind getitem dict_lookup String.eqb Ascii.eqb Bool.eqb].
  rewrite bind_run, lift_run. cbn [py_iter].
  rewrite bind_run, lift_run.
  rewrite (first_r_skip licensed pre x post Hpre)
    by (unfold licensed; rewrite Hp; cbn [rbind]; rewrite Hlc; cbn [rbind]; by rewrite Hin).
  assert (Hx : truthy x = true) by (destruct x as [| | | |l|[|q kv]]; done).
  rewrite Hx, lift_run. cbn [snd]. unfold chosen. rewrite Hp. cbn [rbind].
  rewrite Hurl. cbn [rbind]. rewrite Himg. cbn [rbind]. rewrite Hlc. cbn [rbind].
  by rewrite Hatt.
Qed.

(** X11. The occurrence photos are scanned in their order: the photos
    before the first one with a license of [photo_license] are passed over,
    and that one gives the record. *)
Theorem first_licensed_occurrence query w body results rf taxon_id pre x post p
    license url_photo image attribution :
  search w (url query) = Ok {| status_code := 200; json := Ok body |} →
  getitem body "results" = Ok (VList results) →
  first_r (named query) results = Ok (Some rf) →
  getitem rf "id" = Ok taxon_id →
  no_licensed_default rf = true →
  taxon w taxon_id = Ok {| status_code := 200; json := Ok (detail (pre ++ x :: post)) |} →
  forallb unlicensed pre = true →
  getitem x "photo" = Ok p →
  getitem p "license_code" = Ok license →
  in_strings license photo_license = true →
  getitem p "url" = Ok url_photo →
  image_id url_photo = Ok image →
  getitem p "attribution" = Ok attribution →
  snd (_download query w) = Ok (VList [photo_details query image license attribution]).
Proof. apply licensed_occurrence_record. Qed.

Lemma first_licensed_occurrence_witness :
  let rf := VDict [("name", VStr "Bufo roseus"); ("id", VInt 5);
                   ("default_photo", VNone)] in
  let p1 := photo (VStr "https://x.org/photos/1/square.jpg") (VStr "pd") in
  let p2 := photo (VStr "https://x.org/photos/2/square.jpg") (VStr "cc-by-nc") in
  let p3 := photo (VStr "https://x.org/photos/3/square.jpg") (VStr "cc0") in
  snd (_download "Bufo roseus" (provider [rf] [p1; p2; p3])) =
    Ok (VList [photo_details "Bufo roseus" (VStr "2/medium.jpg") (VStr "cc-by-nc")
                 (VStr "(c) observer")]).
Proof.
  intros rf p1 p2 p3.
  apply (first_licensed_occurrence "Bufo roseus" (provider [rf] [p1; p2; p3])
           (VDict [("results", VList [rf])]) [rf] rf (VInt 5)
           [VDict [("photo", p1)]] (VDict [("photo", p2)]) [VDict [("photo", p3)]] p2
           (VStr "cc-by-nc") (VStr "https://x.org/photos/2/square.jpg"));
    reflexivity.
Defined.

(** X12. A default photo with a license code is used as it is: the search
    is the only request made. *)
Theorem default_photo_single_request query w body results rf taxon_id dp
    license url_photo image attribution :
  search w (url query) = Ok {| status_code := 200; json := Ok body |} →
  getitem body "results" = Ok (VList results) →
  first_r (named query) results = Ok (Some rf) →
  getitem rf "id" = Ok taxon_id →
  getitem rf "default_photo" = Ok dp →
  getitem dp "license_code" = Ok license →
  truthy license = true →
  getitem dp "url" = Ok url_photo →
  image_id url_photo = Ok image →
  getitem dp "attribution" = Ok attribution →
  trace (fst (_download query w)) = trace w ++ [EvSearch (url query)].
Proof.
  intros Hs Hres Hfirst Hid Hdp Hlc Ht Hurl Himg Hatt.
  rewrite (download_selected _ _ _ _ _ _ Hs Hres Hfirst Hid).
  unfold default_photo_info. rewrite Hdp. cbn [rbind].
  assert (Hnn : is_none dp = false) by (by destruct dp).
  rewrite Hnn. cbn [negb]. rewrite Hlc. cbn [rbind]. rewrite Ht, Hnn.
  rewrite lift_run. by destruct (chosen query (Ok dp)).
Qed.

Lemma default_photo_single_request_witness :
  let dp := photo (VStr "https://static.inaturalist.org/photos/7/square.jpg")
              (VStr "cc-by") in
  let rf := VDict [("name", VStr "Bufo roseus"); ("id", VInt 5); ("default_photo", dp)] in
  trace (fst (_download "Bufo roseus" (provider [rf] []))) =
    [EvSearch (url "Bufo roseus")].
Proof.
  intros dp rf.
  apply (default_photo_single_request "Bufo roseus" (provider [rf] [])
           (VDict [("results", VList [rf])]) [rf] rf (VInt 5) dp (VStr "cc-by")
           (VStr "https://static.inaturalist.org/photos/7/square.jpg")
           (VStr "7/medium.jpg") (VStr "(c) observer"));
    reflexivity.
Defined.

Lemma chosen_form query photo out :
  chosen query photo = Ok out →
  ∃ image license attribution, out = photo_details query image license attribution.
Proof.
  unfold chosen.
  destruct (rbind photo (λ p, getitem p "url")) as [u|e]; [|done]. cbn [rbind].
  destruct (image_id u) as [image|e]; [|done]. cbn [rbind].
  destruct (rbind photo (λ p, getitem p "license_code")) as [lc|e]; [|done]. cbn [rbind].
  destruct (rbind photo (λ p, getitem p "attribution")) as [att|e]; [|done].
  cbn [rbind]. intros [= <-]. eauto.
Qed.

(** X13. A payload that [_download] returns is a list of exactly one record
    with the keys [taxon], [image_id], [license_code] and [attribution], and
    [taxon] is the query. *)
Theorem returns_one_photo_record query w out :
  snd (_download query w) = Ok out →
  ∃ image license attribution,
    out = VList [VDict [("taxon", VStr query); ("image_id", image);
                        ("license_code", license); ("attribution", attribution)]].
Proof.
  assert (Hempty : ∃ image license attribution,
            VList [photo_details_empty query] =
            VList [photo_details query image license attribution])
    by (by exists VNone, VNone, VNone).
  unfold _download. rewrite bind_run, get_search_run.
  destruct (search w (url query)) as [resp|e]; [|done].
  destruct (status_code resp =? 200); cbn [negb]; [|done].
  rewrite bind_run, lift_run.
  destruct (rbind (json resp) _) as [results|e]; [|done].
  rewrite bind_run, lift_run. destruct (py_iter results) as [items|e]; [|done].
  rewrite bind_run, lift_run.
  destruct (first_r (named query) items) as [[rf|]|e]; [| by intros [= <-] | done].
  destruct (truthy rf); [|by intros [= <-]].
  rewrite bind_run, lift_run. destruct (getitem rf "id") as [taxon_id|e]; [|done].
  rewrite bind_run, lift_run.
  destruct (default_photo_info rf) as [photo_info|e]; [|done].
  rewrite bind_run. destruct (is_none photo_info).
  - destruct (occurrence_photo query taxon_id _) as [w' [d|e]] eqn:Hocc; [|done].
    rewrite ret_run. cbn [snd]. intros [= <-].
    destruct (occurrence_photo_license query taxon_id _ d ltac:(by rewrite Hocc))
      as (image & license & attribution & -> & _).
    by exists image, license, attribution.
  - rewrite lift_run. destruct (chosen query (Ok photo_info)) as [d|e] eqn:Hch; [|done].
    rewrite ret_run. cbn [snd]. intros [= <-].
    destruct (chosen_form _ _ _ Hch) as (image & license & attribution & ->).
    by exists image, license, attribution.
Qed.

Lemma returns_one_photo_record_witness :
  ∃ image license attribution,
    VList [photo_details_empty "Bufo roseus"] =
    VList [VDict [("taxon", VStr "Bufo roseus"); ("image_id", image);
                  ("license_code", license); ("attribution", attribution)]].
Proof.
  apply (returns_one_photo_record "Bufo roseus" (provider [] [])). reflexivity.
Defined.

Lemma list_index_short {A} (l : list A) (i : Z) :
  (Z.of_nat (length l) < - i)%Z → list_index l i = Raise IndexError.
Proof.
  intros Hlen. unfold list_index.
  destruct (Z.ltb_spec i 0); [|lia].
  destruct (Z.ltb_spec (i + Z.of_nat (length l)) 0); [done | lia].
Qed.

(** X14. A photo URL without any "/" has no two last segments: taking the
    image ID raises [IndexError]. *)
Theorem image_id_needs_a_slash (u : string) :
  no_slash u = true → image_id_of u = Raise IndexError.
Proof.
  intros Hu. unfold image_id_of, split.
  rewrite split_go_segment by done. by rewrite list_index_short.
Qed.

Lemma image_id_needs_a_slash_witness : image_id_of "square.jpg" = Raise IndexError.
Proof. apply image_id_needs_a_slash. reflexivity. Defined.

(** *** The image ID of the record *)

(** The record of a default photo with a license code. *)
Lemma default_photo_record query w body results rf taxon_id dp
    license url_photo image attribution :
  search w (url query) = Ok {| status_code := 200; json := Ok body |} →
  getitem body "results" = Ok (VList results) →
  first_r (named query) results = Ok (Some rf) →
  getitem rf "id" = Ok taxon_id →
  getitem rf "default_photo" = Ok dp →
  getitem dp "license_code" = Ok license →
  truthy license = true →
  getitem dp "url" = Ok url_photo →
  image_id url_photo = Ok image →
  getitem dp "attribution" = Ok attribution →
  snd (_download query w) = Ok (VList [photo_details query image license attribution]).
Proof.
  intros Hs Hres Hfirst Hid Hdp Hlc Ht Hurl Himg Hatt.
  rewrite (download_selected _ _ _ _ _ _ Hs Hres Hfirst Hid).
  unfold default_photo_info. rewrite Hdp. cbn [rbind].
  assert (Hnn : is_none dp = false) by (by destruct dp).
  rewrite Hnn. cbn [negb]. rewrite Hlc. cbn [rbind]. rewrite Ht, Hnn.
  rewrite lift_run. unfold chosen. cbn [rbind].
  rewrite Hurl. cbn [rbind]. rewrite Himg. cbn [rbind]. rewrite Hlc. cbn [rbind].
  by rewrite Hatt.
Qed.

Lemma image_id_segments (segs : list string) (a b : string) :
  forallb no_slash (segs ++ [a; b]) = true →
  image_id (VStr (String.concat "/" (segs ++ [a; b]))) =
    Ok (VStr (replace "square" "medium" (a +:+ "/" +:+ b))).
Proof. intros Hall. unfold image_id. by rewrite image_id_of_segments. Qed.

(** C8. Whichever photo [_download] chooses, the default photo of the
    taxon (lines 107-115) or the first licensed photo of its occurrences
    (lines 93-101), the [image_id] of the record returned is a function of
    the URL of that photo alone: for a URL whose segments between "/" end
    with [a] and [b], it is [a/b] with every "square" replaced by
    "medium". *)
Theorem image_id_last_two_segments query w body results rf taxon_id segs a b :
  search w (url query) = Ok {| status_code := 200; json := Ok body |} →
  getitem body "results" = Ok (VList results) →
  first_r (named query) results = Ok (Some rf) →
  getitem rf "id" = Ok taxon_id →
  forallb no_slash (segs ++ [a; b]) = true →
  (∀ dp license attribution,
     getitem rf "default_photo" = Ok dp →
     getitem dp "license_code" = Ok license →
     truthy license = true →
     getitem dp "url" = Ok (VStr (String.concat "/" (segs ++ [a; b]))) →
     getitem dp "attribution" = Ok attribution →
     snd (_download query w) =
       Ok (VList [VDict [("taxon", VStr query);
                         ("image_id", VStr (replace "square" "medium" (a +:+ "/" +:+ b)));
                         ("license_code", license); ("attribution", attribution)]]))
  ∧ (∀ pre x post p license attribution,
       no_licensed_default rf = true →
       taxon w taxon_id =
         Ok {| status_code := 200; json := Ok (detail (pre ++ x :: post)) |} →
       forallb unlicensed pre = true →
       getitem x "photo" = Ok p →
       getitem p "license_code" = Ok license →
       in_strings license photo_license = true →
       getitem p "url" = Ok (VStr (String.concat "/" (segs ++ [a; b]))) →
       getitem p "attribution" = Ok attribution →
       snd (_download query w) =
         Ok (VList [VDict [("taxon", VStr query);
                           ("image_id", VStr (replace "square" "medium" (a +:+ "/" +:+ b)));
                           ("license_code", license); ("attribution", attribution)]])).
Proof.
  intros Hs Hres Hfirst Hid Hsegs. split.
  - intros dp license attribution Hdp Hlc Ht Hurl Hatt.
    by eapply default_photo_record; [..| apply image_id_segments |].
  - intros pre x post p license attribution Hno Htaxon Hpre Hp Hlc Hin Hurl Hatt.
    by eapply licensed_occurrence_record; [..| apply image_id_segments |].
Qed.

Lemma image_id_last_two_segments_witness :
  let web := ["https:"; ""; "inaturalist-open-data.s3.amazonaws.com"; "photos"] in
  let named_with dp :=
    VDict [("name", VStr "Bufo roseus"); ("id", VInt 5); ("default_photo", dp)] in
  let own := photo (VStr (String.concat "/" (web ++ ["200"; "square.jpg"]))) (VStr "cc-by") in
  let seen := photo (VStr (String.concat "/" (web ++ ["200"; "square.jpg"]))) (VStr "cc0") in
  snd (_download "Bufo roseus" (provider [named_with own] [])) =
    Ok (VList [VDict [("taxon", VStr "Bufo roseus"); ("image_id", VStr "200/medium.jpg");
                      ("license_code", VStr "cc-by");
                      ("attribution", VStr "(c) observer")]])
  ∧ snd (_download "Bufo roseus" (provider [named_with VNone] [seen])) =
      Ok (VList [VDict [("taxon", VStr "Bufo roseus"); ("image_id", VStr "200/medium.jpg");
                        ("license_code", VStr "cc0");
                        ("attribution", VStr "(c) observer")]]).
Proof.
  intros web named_with own seen. split.
  - apply (proj1 (image_id_last_two_segments "Bufo roseus" (provider [named_with own] [])
                    (VDict [("results", VList [named_with own])]) [named_with own]
                    (named_with own) (VInt 5) web "200" "square.jpg"
                    eq_refl eq_refl eq_refl eq_refl eq_refl)
             own (VStr "cc-by") (VStr "(c) observer")); reflexivity.
  - apply (proj2 (image_id_last_two_segments "Bufo roseus"
                    (provider [named_with VNone] [seen])
                    (VDict [("results", VList [named_with VNone])]) [named_with VNone]
                    (named_with VNone) (VInt 5) web "200" "square.jpg"
                    eq_refl eq_refl eq_refl eq_refl eq_refl)
             [] (VDict [("photo", seen)]) [] seen (VStr "cc0") (VStr "(c) observer"));
      reflexivity.
Defined.

End INaturalistEdges.

(* ===================================================================== *)
(** ** [NCBI.download_ids], [NCBI.download_seq], [NCBI.download]: bounds and errors *)
(* ===================================================================== *)

Module NCBIEdges.
Import Py IO IOFacts NCBI NCBIData NCBIFacts.

(** *** [download_ids] at its bounds *)

(** X17. A search that counts no record returns the empty set after that
    one search: no page is asked for. *)
Theorem no_record_no_page self term step w record total :
  esearch w (db self) term 0 0 = Ok record →
  Count record = Ok total →
  total <= 0 →
  0 < step →
  download_ids self term step w = (world_with w [EvEsearch (db self) term 0 0], Ok ∅).
Proof.
  intros Hsearch Hcount Htotal Hstep. unfold download_ids.
  rewrite bind_run, Entrez_esearch_run, Hsearch, bind_run, lift_run, Hcount.
  rewrite bind_run, lift_run. unfold py_range.
  destruct (Z.eqb_spec step 0); [lia|]. destruct (Z.ltb_spec 0 step); [|lia].
  assert (Hn : (total - 0 + step - 1) / step < 1)
    by (apply Z.div_lt_upper_bound; lia).
  replace (Z.to_nat ((total - 0 + step - 1) / step)) with 0%nat by lia.
  reflexivity.
Qed.

Lemma no_record_no_page_witness :
  let w := {| esearch := λ _ _ _ _, Ok {| Count := Ok 0; IdList := [] |};
              esummary := λ _ _, Raise ConnectionError;
              efetch := λ _ _ _, Raise ConnectionError;
              fetches := 0; trace := [] |} in
  download_ids fasta_reader "Unknown Fake Taxonname" 100 w =
    (world_with w [EvEsearch "nucleotide" "Unknown Fake Taxonname" 0 0], Ok ∅).
Proof.
  intros w.
  apply (no_record_no_page fasta_reader "Unknown Fake Taxonname" 100 w
           {| Count := Ok 0; IdList := [] |} 0); [reflexivity | reflexivity | lia | lia].
Defined.

(** X18. With [step = 0] the first search is made and then [range] raises
    [ValueError], which nothing catches. *)
Theorem zero_step_raises self term w record total :
  esearch w (db self) term 0 0 = Ok record →
  Count record = Ok total →
  download_ids self term 0 w =
    (world_with w [EvEsearch (db self) term 0 0], Raise ValueError).
Proof.
  intros Hsearch Hcount. unfold download_ids.
  by rewrite bind_run, Entrez_esearch_run, Hsearch, bind_run, lift_run, Hcount.
Qed.

Lemma zero_step_raises_witness :
  let w := database (λ _, Ok one_fasta) in
  download_ids fasta_reader "Alytes muletensis[Organism]" 0 w =
    (world_with w [EvEsearch "nucleotide" "Alytes muletensis[Organism]" 0 0],
     Raise ValueError).
Proof.
  intros w.
  apply (zero_step_raises fasta_reader "Alytes muletensis[Organism]" w
           {| Count := Ok 3; IdList := ["AY166955"] |} 3); reflexivity.
Defined.

(** *** What a page adds *)

Lemma add_summaries_mono self summaries acc :
  acc ⊆ fst (add_summaries self summaries acc).
Proof.
  revert acc. induction summaries as [|s summaries IH]; intros acc; [done|].
  cbn [add_summaries]. destruct (Length s) as [bp|e]; [|done].
  destruct (bp <=? max_bp self); [|apply IH].
  destruct (Id s) as [i|e]; [|done].
  destruct (bool_decide (i ∉ acc)); [|apply IH].
  etrans; [|apply IH]. set_solver.
Qed.

Lemma add_summaries_readable self summaries acc :
  forallb readable summaries = true →
  snd (add_summaries self summaries acc) = Ok tt ∧
  ∀ s bp i, In s summaries → Length s = Ok bp → bp <= max_bp self → Id s = Ok i →
            i ∈ fst (add_summaries self summaries acc).
Proof.
  revert acc. induction summaries as [|s summaries IH]; intros acc Hall.
  - split; [done|]. intros s bp i [].
  - cbn [forallb] in Hall. apply andb_true_iff in Hall as [Hs Hall].
    unfold readable in Hs. cbn [add_summaries].
    destruct (Length s) as [bp|e] eqn:Hlen; [|done].
    destruct (Id s) as [i|e] eqn:Hid; [|done].
    assert (Hstep : ∀ acc', i ∈ acc' ∨ ¬ bp <= max_bp self →
              snd (add_summaries self summaries acc') = Ok tt ∧
              ∀ s0 bp0 i0, In s0 (s :: summaries) → Length s0 = Ok bp0 →
                bp0 <= max_bp self → Id s0 = Ok i0 →
                i0 ∈ fst (add_summaries self summaries acc')).
    { intros acc' Hi. destruct (IH acc' Hall) as [Hok Hin]. split; [done|].
      intros s0 bp0 i0 [<-|Hs0] Hl0 Hle0 Hi0; [|by eapply Hin].
      assert (bp0 = bp) as -> by congruence. assert (i0 = i) as -> by congruence.
      destruct Hi as [Hi|Hi]; [|done]. by apply add_summaries_mono. }
    destruct (Z.leb_spec bp (max_bp self)); [|apply Hstep; right; lia].
    destruct (bool_decide_reflect (i ∉ acc)) as [Hni|Hi].
    + apply Hstep. left. apply elem_of_union. right. by apply elem_of_singleton.
    + apply Hstep. left. by apply dec_stable.
Qed.

Lemma add_summaries_breaks self pre s post acc e :
  forallb readable pre = true →
  Length s = Raise e →
  add_summaries self (pre ++ s :: post) acc =
    (fst (add_summaries self pre acc), Raise e).
Proof.
  revert acc. induction pre as [|p pre IH]; intros acc Hall Hs.
  - cbn [app add_summaries]. by rewrite Hs.
  - cbn [forallb] in Hall. apply andb_true_iff in Hall as [Hp Hall].
    unfold readable in Hp. cbn [app add_summaries].
    destruct (Length p) as [bp|e']; [|done].
    destruct (Id p) as [i|e']; [|done].
    destruct (bp <=? max_bp self); [|by apply IH].
    destruct (bool_decide (i ∉ acc)); by apply IH.
Qed.

(** X19. A summary that cannot be read stops the discovery: the IDs found
    so far stay, those of the summaries read before it on the page are
    added, the error is printed and no later page is asked for. (What the
    reading raises is an [Exception]; an exception that is none is not
    caught and ends the discovery after the two requests.) *)
Theorem unreadable_summary_stops self term step start rest acc w record pre s post e :
  esearch w (db self) term start step = Ok record →
  esummary w (db self) (String.concat "," (IdList record)) = Ok (pre ++ s :: post) →
  forallb readable pre = true →
  Length s = Raise e →
  if is_Exception e then
    ∃ ids,
      ids_loop self term step (start :: rest) acc w =
        (world_with w [EvEsearch (db self) term start step;
                       EvEsummary (db self) (String.concat "," (IdList record));
                       EvPrint (MsgIds e)],
         Ok ids) ∧
      acc ⊆ ids ∧
      ∀ s' bp i, In s' pre → Length s' = Ok bp → bp <= max_bp self → Id s' = Ok i →
                 i ∈ ids
  else
    ids_loop self term step (start :: rest) acc w =
      (world_with w [EvEsearch (db self) term start step;
                     EvEsummary (db self) (String.concat "," (IdList record))],
       Raise e).
Proof.
  intros Hsearch Hsum Hpre Hs.
  assert (Hrun : ids_loop self term step (start :: rest) acc w =
            if is_Exception e then
              (world_with w [EvEsearch (db self) term start step;
                             EvEsummary (db self) (String.concat "," (IdList record));
                             EvPrint (MsgIds e)],
               Ok (fst (add_summaries self pre acc)))
            else
              (world_with w [EvEsearch (db self) term start step;
                             EvEsummary (db self) (String.concat "," (IdList record))],
               Raise e)).
  { cbn [ids_loop]. rewrite bind_run. unfold ids_page.
    rewrite try_except_run, bind_run, Entrez_esearch_run, Hsearch.
    rewrite bind_run, Entrez_esummary_run. cbn [world_with esummary]. rewrite Hsum.
    rewrite (add_summaries_breaks _ _ _ _ _ e) by done.
    rewrite except_Exception_run. destruct (is_Exception e) eqn:He.
    - rewrite bind_run, print_run, ret_run. cbn [fst snd]. rewrite ret_run.
      f_equal. unfold world_with. cbn [esearch esummary efetch fetches trace].
      by rewrite <- !List.app_assoc.
    - rewrite He. f_equal. unfold world_with.
      cbn [esearch esummary efetch fetches trace]. by rewrite <- !List.app_assoc. }
  destruct (is_Exception e); [|exact Hrun].
  exists (fst (add_summaries self pre acc)). split_and!.
  - exact Hrun.
  - apply add_summaries_mono.
  - by apply add_summaries_readable.
Qed.

Lemma unreadable_summary_stops_witness :
  let w := {| esearch := λ _ _ _ _, Ok {| Count := Ok 3; IdList := ["1"; "2"; "3"] |};
              esummary := λ _ _, Ok [summary_of "1" 100;
                                     {| Length := Raise ValueError; Id := Ok "2" |};
                                     summary_of "3" 100];
              efetch := λ _ _ _, Raise ConnectionError;
              fetches := 0; trace := [] |} in
  ∃ ids,
    ids_loop fasta_reader "Bufo" 3 [0; 3] {["0"]} w =
      (world_with w [EvEsearch "nucleotide" "Bufo" 0 3;
                     EvEsummary "nucleotide" "1,2,3";
                     EvPrint (MsgIds ValueError)],
       Ok ids) ∧
    {["0"]} ⊆ ids ∧
    ∀ s' bp i, In s' [summary_of "1" 100] → Length s' = Ok bp →
               bp <= max_bp fasta_reader → Id s' = Ok i → i ∈ ids.
Proof.
  intros w.
  apply (unreadable_summary_stops fasta_reader "Bufo" 3 0 [3] {["0"]} w
           {| Count := Ok 3; IdList := ["1"; "2"; "3"] |}
           [summary_of "1" 100] {| Length := Raise ValueError; Id := Ok "2" |}
           [summary_of "3" 100] ValueError); reflexivity.
Defined.

(** *** Every page answers *)

Lemma ids_page_readable self term step start acc w record summaries :
  esearch w (db self) term start step = Ok record →
  esummary w (db self) (String.concat "," (IdList record)) = Ok summaries →
  forallb readable summaries = true →
  ∃ w',
    ids_page self term step start acc w =
      (w', Ok (fst (add_summaries self summaries acc), true)) ∧
    same_services w w'.
Proof.
  intros Hsearch Hsum Hall. unfold ids_page.
  rewrite try_except_run, bind_run, Entrez_esearch_run, Hsearch.
  rewrite bind_run, Entrez_esummary_run. cbn [world_with esummary]. rewrite Hsum.
  destruct (add_summaries_readable self summaries acc Hall) as [Hok _].
  destruct (add_summaries self summaries acc) as [ids r]. cbn [snd fst] in *. subst r.
  rewrite ret_run. eexists. split; [done|]. done.
Qed.

Lemma ids_page_mono self term step start acc w :
  acc ⊆ (match snd (ids_page self term step start acc w) with
         | Ok r => fst r
         | Raise _ => acc
         end).
Proof.
  unfold ids_page. rewrite try_except_run, bind_run, Entrez_esearch_run.
  assert (Hcaught : ∀ e w1,
            acc ⊆ match snd (if is_Exception e
                             then (print (MsgIds e) ;;; ret (acc, false)) w1
                             else (w1, Raise e)) with
                  | Ok r => fst r
                  | Raise _ => acc
                  end).
  { intros e w1. destruct (is_Exception e); [|done].
    by rewrite bind_run, print_run, ret_run. }
  destruct (esearch w (db self) term start step) as [record|e]; [|apply Hcaught].
  rewrite bind_run, Entrez_esummary_run. cbn [world_with esummary].
  destruct (esummary w (db self) _) as [summaries|e]; [|apply Hcaught].
  pose proof (add_summaries_mono self summaries acc) as Hm.
  destruct (add_summaries self summaries acc) as [ids [[]|e]]; cbn [fst] in Hm.
  - by rewrite ret_run.
  - rewrite except_Exception_run. destruct (is_Exception e) eqn:He.
    + by rewrite bind_run, print_run, ret_run.
    + by rewrite He.
Qed.

Lemma ids_loop_mono self term step starts acc w :
  acc ⊆ (match snd (ids_loop self term step starts acc w) with
         | Ok ids => ids
         | Raise _ => acc
         end).
Proof.
  revert acc w. induction starts as [|start starts IH]; intros acc w; [done|].
  cbn [ids_loop]. rewrite bind_run.
  pose proof (ids_page_mono self term step start acc w) as Hsub.
  destruct (ids_page self term step start acc w) as [w1 [[acc1 b]|e]]; [|done].
  cbn [fst snd] in *. destruct b.
  - specialize (IH acc1 w1).
    destruct (snd (ids_loop self term step starts acc1 w1)); set_solver.
  - by rewrite ret_run.
Qed.

Lemma ids_loop_complete self term step starts :
  ∀ acc w,
    (∀ start, In start starts →
       ∃ record summaries,
         esearch w (db self) term start step = Ok record ∧
         esummary w (db self) (String.concat "," (IdList record)) = Ok summaries ∧
         forallb readable summaries = true) →
    ∃ w' ids,
      ids_loop self term step starts acc w = (w', Ok ids) ∧
      acc ⊆ ids ∧
      ∀ start record summaries s bp i,
        In start starts →
        esearch w (db self) term start step = Ok record →
        esummary w (db self) (String.concat "," (IdList record)) = Ok summaries →
        In s summaries → Length s = Ok bp → bp <= max_bp self → Id s = Ok i →
        i ∈ ids.
Proof.
  induction starts as [|start starts IH]; intros acc w Hpages.
  - exists w, acc. split_and!; [done | done |]. intros ? ? ? ? ? ? [].
  - destruct (Hpages start ltac:(by left)) as (record & summaries & Hs & Hm & Hall).
    destruct (ids_page_readable self term step start acc w _ _ Hs Hm Hall)
      as (w1 & Hrun & [Hsv1 Hsv2]).
    cbn [ids_loop]. rewrite bind_run, Hrun. cbn [fst snd].
    destruct (IH (fst (add_summaries self summaries acc)) w1) as (w' & ids & -> & Hsub & Hin).
    { intros start' Hstart'. rewrite Hsv1, Hsv2. apply Hpages. by right. }
    exists w', ids. split_and!; [done | |].
    + etrans; [apply add_summaries_mono | done].
    + intros start' record' summaries' s bp i [<-|Hstart'] Hs' Hm' Hins Hl Hle Hi.
      * assert (record' = record) as -> by congruence.
        assert (summaries' = summaries) as -> by congruence.
        apply Hsub. by eapply (add_summaries_readable self summaries acc Hall).
      * eapply Hin; [done | by rewrite Hsv1 | by rewrite Hsv2 | done..].
Qed.

Lemma py_range_starts total step start :
  0 < step →
  page_start total step start →
  ∃ starts, py_range 0 total step = Ok starts ∧ In start starts.
Proof.
  intros Hstep (k & -> & Hlt). unfold py_range.
  destruct (Z.eqb_spec step 0); [lia|]. destruct (Z.ltb_spec 0 step); [|lia].
  eexists. split; [done|]. apply in_map_iff. exists k. split; [lia|].
  apply in_seq. split; [lia|]. cbn [Nat.add].
  assert (Hk : Z.of_nat k < (total - 0 + step - 1) / step).
  { assert (Z.of_nat k + 1 <= (total - 0 + step - 1) / step); [|lia].
    apply Z.div_le_lower_bound; [lia|]. nia. }
  lia.
Qed.

Lemma py_range_page total step starts start :
  0 < step →
  py_range 0 total step = Ok starts → In start starts → page_start total step start.
Proof.
  intros Hstep. unfold py_range.
  destruct (Z.eqb_spec step 0); [lia|]. destruct (Z.ltb_spec 0 step); [|lia].
  intros [= <-] (k & <- & Hk%in_seq)%in_map_iff. exists k. split; [lia|].
  assert (Hk' : Z.of_nat k < (total - 0 + step - 1) / step) by lia.
  assert (Hdiv : step * ((total - 0 + step - 1) / step) <= total - 0 + step - 1)
    by (apply Z.mul_div_le; lia).
  nia.
Qed.

(** X20. When every page of the search answers with summaries that can be
    read, [download_ids] misses nothing: each ID that a summary of a page
    carries with a length of at most [max_bp] is in the set returned. *)
Theorem download_ids_complete self term step w record total :
  esearch w (db self) term 0 0 = Ok record →
  Count record = Ok total →
  0 < step →
  (∀ start, page_start total step start →
     ∃ page summaries,
       esearch w (db self) term start step = Ok page ∧
       esummary w (db self) (String.concat "," (IdList page)) = Ok summaries ∧
       forallb readable summaries = true) →
  ∃ w' ids,
    download_ids self term step w = (w', Ok ids) ∧
    ∀ start page summaries s bp i,
      page_start total step start →
      esearch w (db self) term start step = Ok page →
      esummary w (db self) (String.concat "," (IdList page)) = Ok summaries →
      In s summaries → Length s = Ok bp → bp <= max_bp self → Id s = Ok i →
      i ∈ ids.
Proof.
  intros Hsearch Hcount Hstep Hpages. unfold download_ids.
  rewrite bind_run, Entrez_esearch_run, Hsearch, bind_run, lift_run, Hcount.
  rewrite bind_run, lift_run.
  destruct (py_range 0 total step) as [starts|e] eqn:Hrange;
    [|unfold py_range in Hrange; destruct (Z.eqb_spec step 0); [lia | done]].
  destruct (ids_loop_complete self term step starts ∅
              (world_with w [EvEsearch (db self) term 0 0]))
    as (w' & ids & Hrun & _ & Hin).
  { intros start Hstart. apply Hpages. by eapply py_range_page. }
  exists w', ids. split; [done|].
  intros start page summaries s bp i Hstart Hs Hm Hins Hl Hle Hi.
  destruct (py_range_starts total step start Hstep Hstart) as (starts' & Hr' & Hin').
  assert (starts' = starts) as -> by congruence.
  by eapply (Hin start page summaries s bp i).
Qed.

Lemma download_ids_complete_witness :
  let w := database (λ _, Ok one_fasta) in
  let term := "Alytes muletensis[Organism]" in
  ∃ w' ids,
    download_ids fasta_reader term 1 w = (w', Ok ids) ∧
    ∀ start page summaries s bp i,
      page_start 3 1 start →
      esearch w (db fasta_reader) term start 1 = Ok page →
      esummary w (db fasta_reader) (String.concat "," (IdList page)) = Ok summaries →
      In s summaries → Length s = Ok bp → bp <= max_bp fasta_reader → Id s = Ok i →
      i ∈ ids.
Proof.
  intros w term.
  apply (download_ids_complete fasta_reader term 1 w
           {| Count := Ok 3; IdList := ["AY166955"] |} 3);
    [reflexivity | reflexivity | lia |].
  intros start _. unfold w, database. cbn [esearch esummary].
  destruct (start =? 0); [by eexists _, _|]. destruct (start =? 1); by eexists _, _.
Defined.

(** *** [download_seq] at its bounds *)

Section Fetching.
Variable SeqRecord : Type.
Variable SeqIO_records : string → string → res (list SeqRecord).
Variable encode : SeqRecord → res value.

Lemma attempts_bounded self seq_id rettype retries fuel :
  ∀ attempt w,
    match attempts SeqIO_records self seq_id rettype retries fuel attempt w with
    | (w', Ok _) => (fetches w ≤ fetches w' ≤ fetches w + fuel)%nat
    | (w', Raise e) =>
        is_Exception e = false ∧ (fetches w ≤ fetches w' ≤ fetches w + fuel)%nat
    end.
Proof.
  induction fuel as [|fuel IH]; intros attempt w.
  - cbn [attempts]. rewrite ret_run. lia.
  - cbn [attempts]. destruct (attempt <? retries); [|rewrite ret_run; lia].
    rewrite try_except_run, try_body_run.
    destruct (fetched SeqIO_records self w (fetches w) seq_id rettype) as [seqs|e].
    + cbn [rbind fetch_world fetches]. lia.
    + cbn [rbind]. destruct (is_Exception e) eqn:He;
        [|split; [done | cbn [fetch_world fetches]; lia]].
      assert (Hbreak :
        match (logging_error (MsgError e) ;;; print (MsgError e) ;;;
               ret (Fell (SeqRecord:=SeqRecord) attempt)) (fetch_world w seq_id rettype) with
        | (w', Ok _) => (fetches w ≤ fetches w' ≤ fetches w + S fuel)%nat
        | (w', Raise e) =>
            is_Exception e = false ∧ (fetches w ≤ fetches w' ≤ fetches w + S fuel)%nat
        end).
      { rewrite bind_run, logging_failure_run, bind_run, print_run, ret_run.
        cbn [world_with fetch_world fetches]. lia. }
      destruct e; try exact Hbreak; try discriminate He.
      rewrite bind_run, logging_warning_run, bind_run, print_run, bind_run,
        time_sleep_run.
      match goal with |- context [attempts _ _ _ _ _ _ _ ?w1] =>
        pose proof (IH (attempt + 1) w1) as Hrest;
        destruct (attempts SeqIO_records self seq_id rettype retries fuel (attempt + 1) w1)
          as [w' [x|e]]
      end; cbn [world_with fetch_world fetches] in Hrest; [lia | split; [tauto | lia]].
Qed.

(** X15. [download_seq] lets no [Exception] out, whatever the fetches do:
    it returns sequences or [None], and what it raises, if anything, is no
    [Exception] (a [KeyboardInterrupt], say, which neither [except] clause
    catches). Either way there are at most [retries] fetches. *)
Theorem download_seq_catches_all self seq_id rettype retries w :
  match download_seq SeqIO_records self seq_id rettype retries w with
  | (w', Ok _) => (fetches w ≤ fetches w' ≤ fetches w + Z.to_nat retries)%nat
  | (w', Raise e) =>
      is_Exception e = false ∧
      (fetches w ≤ fetches w' ≤ fetches w + Z.to_nat retries)%nat
  end.
Proof.
  unfold download_seq. rewrite bind_run.
  pose proof (attempts_bounded self seq_id rettype retries (Z.to_nat retries) 0 w) as Hle.
  destruct (attempts SeqIO_records self seq_id rettype retries (Z.to_nat retries) 0 w)
    as [w' [x|e]]; [|exact Hle].
  destruct x as [seqs|attempt].
  - by rewrite ret_run.
  - rewrite bind_run. destruct (attempt =? retries).
    + by rewrite bind_run, logging_failure_run, print_run, ret_run.
    + by rewrite !ret_run.
Qed.

(** X16. An [Exception] other than [IncompleteRead], from the fetch or from
    the parsing of what was fetched, is not retried: after that one fetch
    the error is logged and printed and [None] is the result. An exception
    that is no [Exception] leaves [download_seq] after that one fetch. *)
Theorem other_exception_no_retry self seq_id rettype retries w e :
  0 < retries →
  fetched SeqIO_records self w (fetches w) seq_id rettype = Raise e →
  e ≠ IncompleteRead →
  download_seq SeqIO_records self seq_id rettype retries w =
    if is_Exception e then
      (world_with (fetch_world w seq_id rettype)
         [EvError (MsgError e); EvPrint (MsgError e)],
       Ok None)
    else (fetch_world w seq_id rettype, Raise e).
Proof.
  intros Hpos Hfetch Hne. unfold download_seq. rewrite bind_run.
  destruct (Z.to_nat retries) as [|fuel] eqn:Hfuel; [lia|].
  cbn [attempts]. destruct (Z.ltb_spec 0 retries); [|lia].
  rewrite try_except_run, try_body_run, Hfetch. cbn [rbind].
  assert (Hbreak :
    (logging_error (MsgError e) ;;; print (MsgError e) ;;; ret (Fell (SeqRecord:=SeqRecord) 0))
      (fetch_world w seq_id rettype) =
    (world_with (fetch_world w seq_id rettype) [EvError (MsgError e); EvPrint (MsgError e)],
     Ok (Fell 0))).
  { rewrite bind_run, logging_failure_run, bind_run, print_run, ret_run.
    f_equal. unfold world_with. cbn [esearch esummary efetch fetches trace].
    by rewrite <- List.app_assoc. }
  destruct e; try done; cbn [is_Exception]; rewrite Hbreak, bind_run;
    (destruct (Z.eqb_spec 0 retries); [lia|]); by rewrite ret_run.
Qed.

(** X21. With [rettype] "fasta" and fetches that all succeed, the payload
    grows by the blocks of every batch, batch after batch in their order,
    and each batch costs one fetch. *)
Theorem batches_all_fetched self (text : list string → string) batches :
  rettype self = "fasta" →
  ∀ payload w,
    (∀ n seq_id, efetch w n seq_id "fasta" = Ok (text seq_id)) →
    snd (batches_loop SeqIO_records encode self batches payload w) =
      Ok (payload ++ flat_map (λ seq_id, fasta_blocks (text seq_id)) batches)
    ∧ fetches (fst (batches_loop SeqIO_records encode self batches payload w)) =
        (fetches w + length batches)%nat.
Proof.
  intros Hfasta. induction batches as [|seq_id batches IH]; intros payload w Hfetch.
  - cbn [batches_loop flat_map length]. rewrite ret_run, app_nil_r. cbn [fst snd].
    split; [done | lia].
  - cbn [batches_loop flat_map length]. rewrite bind_run, Hfasta.
    assert (Hparse : fetched SeqIO_records self w (fetches w + 0) seq_id "fasta" =
                     Ok (map Fasta (removelast (split (nl +:+ nl) (text seq_id))))).
    { unfold fetched. rewrite Hfetch. cbn [rbind]. unfold parse_fetched, self_rettype.
      by rewrite Hfasta. }
    rewrite (download_seq_success _ _ self seq_id "fasta" 3 w 0%nat
               (map Fasta (removelast (split (nl +:+ nl) (text seq_id)))));
      [| lia | intros j Hj; lia | exact Hparse].
    rewrite bind_run, lift_run.
    assert (Happ : ∀ blocks p,
              append_all encode (map Fasta blocks) p = Ok (p ++ map VStr blocks)).
    { induction blocks as [|b blocks IHb]; intros p.
      - by rewrite app_nil_r.
      - cbn [map append_all roundtrip rbind]. rewrite IHb.
        by rewrite <- List.app_assoc. }
    rewrite Happ.
    match goal with |- context [batches_loop _ _ _ _ _ ?w1] =>
      destruct (IH (payload ++ map VStr (removelast (split (nl +:+ nl) (text seq_id)))) w1)
        as [Hres Hcount]; [intros n s; exact (Hfetch n s)|]
    end.
    rewrite Hres, Hcount. unfold fasta_blocks. rewrite <- List.app_assoc.
    split; [done|]. cbn [fetch_world retried fetches]. lia.
Qed.

End Fetching.

Lemma other_exception_no_retry_witness :
  let w := database (λ _, Raise ConnectionError) in
  download_seq no_records fasta_reader ["AY166955"] "fasta" 3 w =
    (world_with (fetch_world w ["AY166955"] "fasta")
       [EvError (MsgError ConnectionError); EvPrint (MsgError ConnectionError)],
     Ok None).
Proof.
  intros w.
  apply (other_exception_no_retry unit no_records fasta_reader ["AY166955"] "fasta" 3 w
           ConnectionError); [lia | reflexivity | discriminate].
Defined.

(** A [KeyboardInterrupt] during the fetch is caught by neither clause: it
    leaves [download_seq], and with it the whole download. *)
Lemma keyboard_interrupt_not_caught :
  let w := database (λ _, Raise KeyboardInterrupt) in
  download_seq no_records fasta_reader ["AY166955"] "fasta" 3 w =
    (fetch_world w ["AY166955"] "fasta", Raise KeyboardInterrupt).
Proof. reflexivity. Qed.

Lemma batches_all_fetched_witness :
  let w := database (λ _, Ok one_fasta) in
  snd (batches_loop no_records no_encoding fasta_reader [["KJ858801"]; ["AY166955"]] [] w) =
    Ok ([] ++ flat_map (λ _, fasta_blocks one_fasta) [["KJ858801"]; ["AY166955"]])
  ∧ fetches (fst (batches_loop no_records no_encoding fasta_reader
                    [["KJ858801"]; ["AY166955"]] [] w)) = (fetches w + 2)%nat.
Proof.
  intros w.
  apply (batches_all_fetched unit no_records no_encoding fasta_reader (λ _, one_fasta)
           [["KJ858801"]; ["AY166955"]]); [reflexivity | by intros].
Defined.

End NCBIEdges.

(* ===================================================================== *)
(** ** [NCBI.fasta] and [NCBI.taxonomy_id] *)
(* ===================================================================== *)

Module NCBIStaticFacts.
Import Py IO IOFacts StringFacts NCBIStatic.

Lemma set_email_run mail w :
  set_email mail w =
    ({| email := mail; esearch := esearch w; efetch_records := efetch_records w;
        efetch_text := efetch_text w; trace := trace w |}, Ok tt).
Proof. reflexivity. Qed.

Lemma Entrez_efetch_fasta_run d i w :
  Entrez_efetch_fasta d i w = (world_with w [EvFasta d i], efetch_text w d i).
Proof. reflexivity. Qed.

Lemma static_esearch_run d term w :
  Entrez_esearch d term w = (world_with w [EvEsearch d term], esearch w d term).
Proof. reflexivity. Qed.

Lemma static_efetch_run d i w :
  Entrez_efetch d i w = (world_with w [EvEfetch d i], efetch_records w d i).
Proof. reflexivity. Qed.

Lemma static_world_with_app w e1 e2 :
  world_with (world_with w e1) e2 = world_with w (e1 ++ e2).
Proof.
  unfold world_with. cbn [email esearch efetch_records efetch_text trace].
  by rewrite <- List.app_assoc.
Qed.

Lemma static_world_with_nil w : world_with w [] = w.
Proof. unfold world_with. rewrite app_nil_r. by destruct w. Qed.

(** *** [fasta] *)

Lemma fasta_loop_all d (text : string → string) query :
  ∀ fasta_tot w,
    (∀ seq, In seq query → efetch_text w d seq = Ok (text seq)) →
    fasta_loop d query fasta_tot w =
      (world_with w (map (EvFasta d) query), Ok (fasta_tot ++ map text query)).
Proof.
  induction query as [|seq query IH]; intros fasta_tot w Hall.
  - cbn [fasta_loop map]. by rewrite ret_run, static_world_with_nil, app_nil_r.
  - cbn [fasta_loop map]. rewrite bind_run, Entrez_efetch_fasta_run.
    rewrite (Hall seq) by (by left).
    rewrite IH by (intros s Hs; apply Hall; by right).
    rewrite static_world_with_app. by rewrite <- List.app_assoc.
Qed.

(** X22. When every fetch answers, [fasta] returns one text per ID, in the
    order of the query, after one request per ID in that order; and it
    leaves [Entrez.email] set to [mail]. *)
Theorem fasta_one_text_per_id query d mail (text : string → string) w :
  (∀ seq, In seq query → efetch_text w d seq = Ok (text seq)) →
  snd (fasta query d mail w) = Ok (map text query) ∧
  trace (fst (fasta query d mail w)) = trace w ++ map (EvFasta d) query ∧
  email (fst (fasta query d mail w)) = mail.
Proof.
  intros Hall. unfold fasta. rewrite bind_run, set_email_run.
  rewrite (fasta_loop_all d text) by done. done.
Qed.

Lemma fasta_one_text_per_id_witness :
  let w := taxonomy 0 VNone (λ i, Ok (">" +:+ i)) in
  snd (fasta ["AY166955"; "KJ858961"] "nucleotide" default_mail w) =
    Ok (map (λ i, ">" +:+ i) ["AY166955"; "KJ858961"]) ∧
  trace (fst (fasta ["AY166955"; "KJ858961"] "nucleotide" default_mail w)) =
    trace w ++ map (EvFasta "nucleotide") ["AY166955"; "KJ858961"] ∧
  email (fst (fasta ["AY166955"; "KJ858961"] "nucleotide" default_mail w)) = default_mail.
Proof.
  intros w.
  apply (fasta_one_text_per_id ["AY166955"; "KJ858961"] "nucleotide" default_mail
           (λ i, ">" +:+ i) w).
  intros seq _. reflexivity.
Defined.

(** X23. [fasta] does not retry and catches nothing: the first fetch that
    raises ends the call with its exception, the texts read before it are
    lost and the IDs after it are not asked for. *)
Theorem fasta_first_failure_raises pre seq post d mail (text : string → string) e w :
  (∀ s, In s pre → efetch_text w d s = Ok (text s)) →
  efetch_text w d seq = Raise e →
  snd (fasta (pre ++ seq :: post) d mail w) = Raise e ∧
  trace (fst (fasta (pre ++ seq :: post) d mail w)) =
    trace w ++ map (EvFasta d) (pre ++ [seq]).
Proof.
  intros Hpre Hseq. unfold fasta. rewrite bind_run, set_email_run.
  set (w0 := {| email := mail; esearch := esearch w; efetch_records := efetch_records w;
                efetch_text := efetch_text w; trace := trace w |}).
  assert (Hloop : ∀ pre' tot w1,
            efetch_text w1 = efetch_text w →
            (∀ s, In s pre' → efetch_text w d s = Ok (text s)) →
            fasta_loop d (pre' ++ seq :: post) tot w1 =
              (world_with w1 (map (EvFasta d) (pre' ++ [seq])), Raise e)).
  { induction pre' as [|s pre' IH]; intros tot w1 Hw1 Hall.
    - cbn [app fasta_loop map]. by rewrite bind_run, Entrez_efetch_fasta_run, Hw1, Hseq.
    - cbn [app fasta_loop map]. rewrite bind_run, Entrez_efetch_fasta_run, Hw1.
      rewrite (Hall s) by (by left).
      rewrite IH; [by rewrite static_world_with_app | done |].
      intros s' Hs'. apply Hall. by right. }
  by rewrite (Hloop pre [] w0).
Qed.

Lemma fasta_first_failure_raises_witness :
  let w := taxonomy 0 VNone
             (λ i, if String.eqb i "KJ858961" then Raise ConnectionError
                   else Ok (">" +:+ i)) in
  snd (fasta (["AY166955"] ++ "KJ858961" :: ["KJ858801"]) "nucleotide" default_mail w) =
    Raise ConnectionError ∧
  trace (fst (fasta (["AY166955"] ++ "KJ858961" :: ["KJ858801"]) "nucleotide"
                default_mail w)) =
    trace w ++ map (EvFasta "nucleotide") (["AY166955"] ++ ["KJ858961"]).
Proof.
  intros w.
  apply (fasta_first_failure_raises ["AY166955"] "KJ858961" ["KJ858801"] "nucleotide"
           default_mail (λ i, ">" +:+ i) ConnectionError w).
  - intros s [<-|[]]. reflexivity.
  - reflexivity.
Defined.

(** *** [taxonomy_id] *)

(** X24. A name that the search does not find returns the empty list
    after that one search, whatever [lineage] is: nothing is fetched. *)
Theorem taxonomy_id_not_found taxon lineage mail w found count :
  esearch w "Taxonomy" (taxon +:+ "[All Names]") = Ok found →
  NCBI.Count found = Ok count →
  count <= 0 →
  snd (taxonomy_id taxon lineage mail w) = Ok (VList []) ∧
  trace (fst (taxonomy_id taxon lineage mail w)) =
    trace w ++ [EvEsearch "Taxonomy" (taxon +:+ "[All Names]")].
Proof.
  intros Hs Hc Hle. unfold taxonomy_id.
  rewrite bind_run, set_email_run, bind_run, static_esearch_run.
  cbn [world_with esearch]. rewrite Hs, bind_run, lift_run, Hc.
  destruct (Z.ltb_spec 0 count); [lia|]. by rewrite ret_run.
Qed.

Lemma taxonomy_id_not_found_witness :
  let w := taxonomy 0 VNone (λ _, Raise ConnectionError) in
  snd (taxonomy_id "Unknown Fake Taxonname" (VBool true) default_mail w) = Ok (VList []) ∧
  trace (fst (taxonomy_id "Unknown Fake Taxonname" (VBool true) default_mail w)) =
    trace w ++ [EvEsearch "Taxonomy" ("Unknown Fake Taxonname" +:+ "[All Names]")].
Proof.
  intros w.
  apply (taxonomy_id_not_found "Unknown Fake Taxonname" (VBool true) default_mail w
           {| NCBI.Count := Ok 0; NCBI.IdList := ["8443"] |} 0);
    [reflexivity | reflexivity | lia].
Defined.

(** The run up to the records. *)
Lemma taxonomy_id_records taxon lineage mail w found count records :
  esearch w "Taxonomy" (taxon +:+ "[All Names]") = Ok found →
  NCBI.Count found = Ok count →
  0 < count →
  efetch_records w "Taxonomy" (NCBI.IdList found) = Ok records →
  snd (taxonomy_id taxon lineage mail w) =
    if is_True lineage then
      rbind (rbind (record0 records "LineageEx") py_iter) (λ infos,
      rbind (ancestors infos []) (λ lin,
      rbind (record0 records "TaxId") (λ t,
      rbind (rbind (record0 records "ScientificName") last_word) (λ n,
      rbind (record0 records "Rank") (λ r,
      Ok (VList (lin ++ [taxonomy_dict t n r])))))))
    else
      rbind (record0 records "TaxId") (λ t,
      rbind (record0 records "ScientificName") (λ n,
      rbind (record0 records "Rank") (λ r,
      Ok (taxonomy_dict t n r)))).
Proof.
  intros Hs Hc Hpos Hf. unfold taxonomy_id.
  rewrite bind_run, set_email_run, bind_run, static_esearch_run.
  cbn [world_with esearch]. rewrite Hs, bind_run, lift_run, Hc.
  destruct (Z.ltb_spec 0 count); [|lia].
  rewrite bind_run, static_efetch_run. cbn [world_with efetch_records]. rewrite Hf.
  destruct (is_True lineage).
  - rewrite bind_run, lift_run.
    destruct (rbind (record0 records "LineageEx") py_iter) as [infos|e]; [|done].
    rewrite bind_run, lift_run. cbn [rbind].
    destruct (ancestors infos []) as [lin|e]; [|done].
    rewrite bind_run, lift_run. cbn [rbind].
    destruct (record0 records "TaxId") as [t|e]; [|done].
    rewrite bind_run, lift_run. cbn [rbind].
    destruct (rbind (record0 records "ScientificName") last_word) as [n|e]; [|done].
    rewrite bind_run, lift_run. cbn [rbind].
    by destruct (record0 records "Rank") as [r|e].
  - rewrite bind_run, lift_run.
    destruct (record0 records "TaxId") as [t|e]; [|done].
    rewrite bind_run, lift_run. cbn [rbind].
    destruct (record0 records "ScientificName") as [n|e]; [|done].
    rewrite bind_run, lift_run. cbn [rbind].
    by destruct (record0 records "Rank") as [r|e].
Qed.

Lemma record0_head r others k :
  record0 (VList (r :: others)) k = getitem r k.
Proof.
  unfold record0, getitem_int, list_index. cbn [length Z.ltb Z.compare].
  destruct (Z.leb_spec (Z.of_nat (S (length others))) 0); [lia | done].
Qed.

(** X25. Unless [lineage] is [True] itself, the result for a name that is
    found is one dict, not a list: the ID, the whole scientific name and
    the rank of the first record. A value such as [1] counts as not [True]. *)
Theorem taxonomy_id_without_lineage taxon lineage mail w found count r others t n rk :
  esearch w "Taxonomy" (taxon +:+ "[All Names]") = Ok found →
  NCBI.Count found = Ok count →
  0 < count →
  efetch_records w "Taxonomy" (NCBI.IdList found) = Ok (VList (r :: others)) →
  is_True lineage = false →
  getitem r "TaxId" = Ok t →
  getitem r "ScientificName" = Ok n →
  getitem r "Rank" = Ok rk →
  snd (taxonomy_id taxon lineage mail w) =
    Ok (VDict [("TaxId", t); ("ScientificName", n); ("Rank", rk)]).
Proof.
  intros Hs Hc Hpos Hf Hlin Ht Hn Hr.
  rewrite (taxonomy_id_records _ _ _ _ _ _ _ Hs Hc Hpos Hf), Hlin.
  rewrite !record0_head, Ht. cbn [rbind]. rewrite Hn. cbn [rbind]. by rewrite Hr.
Qed.

Lemma taxonomy_id_without_lineage_witness :
  snd (taxonomy_id "Alytes muletensis" (VInt 1) default_mail
         (taxonomy 1 (VList [alytes]) (λ _, Raise ConnectionError))) =
    Ok (VDict [("TaxId", VStr "8443"); ("ScientificName", VStr "Alytes muletensis");
               ("Rank", VStr "species")]).
Proof.
  apply (taxonomy_id_without_lineage "Alytes muletensis" (VInt 1) default_mail
           (taxonomy 1 (VList [alytes]) (λ _, Raise ConnectionError))
           {| NCBI.Count := Ok 1; NCBI.IdList := ["8443"] |} 1 alytes []);
    reflexivity.
Defined.

(** The last word of a name. *)

Lemma eqb_app_char cur c : String.eqb (cur +:+ String c "") "" = false.
Proof. by destruct cur. Qed.

(** *** Whitespace in UTF-8 *)

Lemma is_space2_continued a b : is_space2 a b = true → is_continuation b = true.
Proof.
  unfold is_space2, is_continuation. cbv zeta.
  intros [_ [->%Nat.eqb_eq| ->%Nat.eqb_eq]%orb_true_iff]%andb_true_iff; reflexivity.
Qed.

Lemma is_space3_continued a b c :
  is_space3 a b c = true → is_continuation b = true ∧ is_continuation c = true.
Proof.
  unfold is_space3, is_continuation. cbv zeta. intros H.
  repeat (apply orb_true_iff in H as [H|H]);
    repeat match type of H with
           | _ && _ = true => let H' := fresh in apply andb_true_iff in H as [H H']
           end;
    repeat match goal with
           | H : _ || _ = true |- _ => apply orb_true_iff in H as [H|H]
           | H : _ && _ = true |- _ =>
               let H' := fresh in apply andb_true_iff in H as [H H']
           | H : (_ =? _)%nat = true |- _ => apply Nat.eqb_eq in H
           | H : (_ <=? _)%nat = true |- _ => apply Nat.leb_le in H
           end;
    split; apply andb_true_iff; split;
      (apply Nat.leb_le || apply Nat.ltb_lt); lia.
Qed.

(** The bytes behind the first one of a whitespace character continue it. *)
Lemma space_width_continued a r k :
  space_width (String a r) = S k → continued k r = true.
Proof.
  cbn [space_width]. destruct (is_space a); [by intros [= <-]|].
  destruct r as [|b r']; [done|].
  destruct (is_space2 a b) eqn:H2.
  - intros [= <-]. cbn [continued]. by rewrite (is_space2_continued a b H2).
  - destruct r' as [|c r'']; [done|].
    destruct (is_space3 a b c) eqn:H3; [|done].
    intros [= <-]. destruct (is_space3_continued a b c H3) as [Hb Hc].
    cbn [continued]. by rewrite Hb, Hc.
Qed.

(** No whitespace character begins with a byte that continues one. *)
Lemma space_width_continuation c s :
  is_continuation c = true → space_width (String c s) = 0%nat.
Proof.
  unfold is_continuation. cbv zeta.
  intros [Hlo%Nat.leb_le Hhi%Nat.ltb_lt]%andb_true_iff.
  assert (H1 : is_space c = false).
  { unfold is_space. cbv zeta.
    destruct (Nat.leb_spec (nat_of_ascii c) 13), (Nat.leb_spec (nat_of_ascii c) 32);
      lia. }
  assert (Hne : ∀ n, (192 ≤ n)%nat → (nat_of_ascii c =? n)%nat = false).
  { intros n Hn. apply Nat.eqb_neq. lia. }
  assert (H2 : ∀ b, is_space2 c b = false).
  { intros b. unfold is_space2. cbv zeta. by rewrite Hne by lia. }
  assert (H3 : ∀ b d, is_space3 c b d = false).
  { intros b d. unfold is_space3. cbv zeta. by rewrite !Hne by lia. }
  cbn [space_width]. rewrite H1.
  destruct s as [|b [|d s]]; [done | by rewrite H2 | by rewrite H2, H3].
Qed.

(** A whitespace character is recognised by its own bytes. *)
Lemma space_width_app s t :
  s ≠ "" → space_width s = String.length s →
  space_width (s +:+ t) = String.length s.
Proof.
  intros Hne. destruct s as [|a [|b [|c [|d s]]]]; [done|..];
    rewrite ?app_cons; cbn [space_width String.length];
    destruct (is_space a); try done;
    destruct (is_space2 a b); try done;
    destruct (is_space3 a b c); done.
Qed.

Lemma split_ws_go_skip p :
  ∀ cur t, split_ws_go (String.length p) cur (p +:+ t) = split_ws_go 0 cur t.
Proof.
  induction p as [|c p IH]; intros cur t; [by destruct t|].
  rewrite app_cons. cbn [String.length split_ws_go]. apply IH.
Qed.

Lemma split_ws_go_word word :
  ∀ cur, no_space word = true → cur +:+ word ≠ "" →
         split_ws_go 0 cur word = [cur +:+ word].
Proof.
  induction word as [|c word IH]; intros cur Hw Hne.
  - rewrite app_empty_r in *. cbn [split_ws_go].
    by destruct (String.eqb_spec cur "").
  - cbn [no_space] in Hw. apply andb_true_iff in Hw as [Hc%Nat.eqb_eq Hw].
    cbn [split_ws_go]. rewrite Hc, IH; [by rewrite app_assoc | done |].
    rewrite app_assoc. by destruct cur.
Qed.

Lemma split_ws_go_last word :
  no_space word = true → word ≠ "" →
  ∀ pre skip cur,
    pre ≠ "" → ends_blank pre = true → continued skip (pre +:+ word) = true →
    ∃ l, split_ws_go skip cur (pre +:+ word) = l ++ [word].
Proof.
  intros Hw Hne. induction pre as [|c pre IH]; intros skip cur Hpre Hends Hskip; [done|].
  cbn [ends_blank] in Hends. rewrite app_cons in *.
  destruct skip as [|k].
  - cbn [split_ws_go].
    destruct (Nat.eqb_spec (space_width (String c pre)) (String.length (String c pre)))
      as [Hwhole|_].
    + pose proof (space_width_app (String c pre) word ltac:(done) Hwhole) as Happ.
      rewrite app_cons in Happ. rewrite Happ. cbn [String.length].
      rewrite !split_ws_go_skip, (split_ws_go_word word "") by done.
      rewrite app_nil_l.
      destruct (String.eqb cur ""); [by exists [] | by exists [cur]].
    + cbn [orb] in Hends. apply andb_true_iff in Hends as [Hpre' Hends].
      assert (pre ≠ "") by (by destruct pre).
      destruct (space_width (String c (pre +:+ word))) as [|k] eqn:Hwidth.
      * by apply IH.
      * destruct (IH k "" ltac:(done) Hends (space_width_continued _ _ _ Hwidth))
          as [l Hl].
        destruct (String.eqb cur ""); [by exists l|].
        exists (cur :: l). by rewrite Hl.
  - cbn [continued] in Hskip. apply andb_true_iff in Hskip as [Hc Hskip].
    rewrite (space_width_continuation c pre Hc) in Hends.
    cbn [String.length Nat.eqb orb] in Hends.
    apply andb_true_iff in Hends as [Hpre' Hends].
    cbn [split_ws_go]. apply IH; [by destruct pre | done | done].
Qed.

Lemma list_index_last {A} (l : list A) (a : A) : list_index (l ++ [a]) (-1) = Ok a.
Proof.
  unfold list_index. rewrite length_app. cbn [length Z.ltb Z.compare].
  replace (-1 + Z.of_nat (length l + 1)) with (Z.of_nat (length l)) by lia.
  destruct (Z.ltb_spec (Z.of_nat (length l)) 0); [lia|].
  destruct (Z.leb_spec (Z.of_nat (length l + 1)) (Z.of_nat (length l))); [lia|].
  cbn [orb]. rewrite Nat2Z.id, lookup_app_r by lia. by rewrite Nat.sub_diag.
Qed.

Lemma last_word_of pre word :
  no_space word = true → word ≠ "" → ends_blank pre = true →
  last_word (VStr (pre +:+ word)) = Ok (VStr word).
Proof.
  intros Hw Hne Hends. unfold last_word, split_ws.
  destruct pre as [|c pre].
  - rewrite app_nil_l, (split_ws_go_word word "") by done. by rewrite app_nil_l.
  - destruct (split_ws_go_last word Hw Hne (String c pre) 0 "" ltac:(done) Hends eq_refl)
      as [l ->].
    by rewrite list_index_last.
Qed.

(** A no-break space between the two words of a name splits it like any
    other whitespace. *)
Lemma last_word_no_break_space :
  last_word (VStr ("Alytes" +:+ nbsp +:+ "muletensis")) = Ok (VStr "muletensis").
Proof. by apply (last_word_of ("Alytes" +:+ nbsp) "muletensis"). Qed.

Lemma ancestors_objects infos :
  ∀ lin, forallb is_object infos = true →
         ancestors infos lin = Ok (lin ++ map ancestor_of infos).
Proof.
  induction infos as [|info infos IH]; intros lin Hall.
  - by rewrite app_nil_r.
  - cbn [forallb] in Hall. apply andb_true_iff in Hall as [Hi Hall].
    destruct info as [| | | |l|kv]; try done.
    cbn [ancestors ancestor dict_get_or rbind map ancestor_of].
    rewrite IH by done. by rewrite <- List.app_assoc.
Qed.

(** X26. With [lineage=True] the result lists the ancestors of [LineageEx]
    in the provider's order, each with its ID, name and rank (the empty
    string for a missing one), and then the taxon itself, of whose
    scientific name only the last word is kept. *)
Theorem taxonomy_id_lineage taxon mail w found count r others infos t pre word rk :
  esearch w "Taxonomy" (taxon +:+ "[All Names]") = Ok found →
  NCBI.Count found = Ok count →
  0 < count →
  efetch_records w "Taxonomy" (NCBI.IdList found) = Ok (VList (r :: others)) →
  getitem r "LineageEx" = Ok (VList infos) →
  forallb is_object infos = true →
  getitem r "TaxId" = Ok t →
  getitem r "ScientificName" = Ok (VStr (pre +:+ word)) →
  ends_blank pre = true → no_space word = true → word ≠ "" →
  getitem r "Rank" = Ok rk →
  snd (taxonomy_id taxon (VBool true) mail w) =
    Ok (VList (map ancestor_of infos ++
               [VDict [("TaxId", t); ("ScientificName", VStr word); ("Rank", rk)]])).
Proof.
  intros Hs Hc Hpos Hf Hle Hobj Ht Hn Hends Hw Hne Hr.
  rewrite (taxonomy_id_records _ _ _ _ _ _ _ Hs Hc Hpos Hf). cbn [is_True].
  rewrite !record0_head, Hle. cbn [rbind py_iter].
  rewrite ancestors_objects by done. cbn [rbind app]. rewrite Ht. cbn [rbind].
  rewrite Hn. cbn [rbind]. rewrite last_word_of by done. cbn [rbind].
  by rewrite Hr.
Qed.

Lemma taxonomy_id_lineage_witness :
  snd (taxonomy_id "Alytes muletensis" (VBool true) default_mail
         (taxonomy 1 (VList [alytes]) (λ _, Raise ConnectionError))) =
    Ok (VList (map ancestor_of [rank "8292" "Amphibia" "class";
                                rank "8342" "Anura" "order";
                                rank "8441" "Alytes" "genus"] ++
               [VDict [("TaxId", VStr "8443"); ("ScientificName", VStr "muletensis");
                       ("Rank", VStr "species")]])).
Proof.
  apply (taxonomy_id_lineage "Alytes muletensis" default_mail
           (taxonomy 1 (VList [alytes]) (λ _, Raise ConnectionError))
           {| NCBI.Count := Ok 1; NCBI.IdList := ["8443"] |} 1 alytes []
           [rank "8292" "Amphibia" "class"; rank "8342" "Anura" "order";
            rank "8441" "Alytes" "genus"]
           (VStr "8443") "Alytes " "muletensis" (VStr "species"));
    try reflexivity.
  discriminate.
Defined.

End NCBIStaticFacts.
